(** * fog-ai: the fog-node pipeline, embedded from its Python sources

    [fog_node/traffic_capture.py]    the bounded capture queue
    [fog_node/feature_extraction.py] the windowed feature extractor
    [fog_node/anomaly_detection.py]  the scoring port
    [fog_node/fog_agent.py]          the agent and its analysis cycle

    Python exceptions are explicit: every operation that can raise returns a
    [result].  Objects mutated in place are passed as explicit state. *)

From Stdlib Require Import ZArith QArith Qround Qminmax List String Ascii Bool Lia.
From Stdlib Require Import Floats.SpecFloat.
From stdpp Require Import gmap strings.
Import ListNotations.

Set Warnings "-register-all".

Local Open Scope string_scope.
Local Open Scope Z_scope.

(** ** Exceptions *)

Inductive exn : Set :=
| IndexError | KeyError | TypeError | ValueError
| ZeroDivisionError | OverflowError | AttributeError
| QueueFull | QueueEmpty.

Inductive result (A : Type) : Type :=
| Ok (a : A)
| Raise (e : exn).
Arguments Ok {A} a.
Arguments Raise {A} e.

#[global] Instance result_ret : MRet result := fun A a => Ok a.
#[global] Instance result_bind : MBind result := fun A B f m =>
  match m with
  | Ok a => f a
  | Raise e => Raise e
  end.

#[global] Instance result_fmap : FMap result := fun A B f m =>
  match m with
  | Ok a => Ok (f a)
  | Raise e => Raise e
  end.

Definition returns {A} (r : result A) : Prop := exists a, r = Ok a.

(** ** Python values carried by packet records

    The values a decoded JSON document can hold.  A [PyFloat] is a finite
    float, given by its exact value; [bool] is a subclass of [int]. *)

Inductive pyval : Type :=
| PyNone
| PyBool (b : bool)
| PyInt (z : Z)
| PyFloat (q : Q)
| PyStr (s : string)
| PyList (l : list pyval)
| PyDict (d : list (string * pyval)).

(** [d.get(key)] on the bindings of a dict (its keys are pairwise distinct). *)
Fixpoint dict_get (key : string) (d : list (string * pyval)) : option pyval :=
  match d with
  | [] => None
  | (k, v) :: d' => if String.eqb k key then Some v else dict_get key d'
  end.

(** [key in v] for a string [key]: key membership on a dict, element
    membership on a list, substring test on a string, [TypeError] on a value
    that is not a container. *)
Definition is_str (key : string) (v : pyval) : bool :=
  match v with
  | PyStr s => String.eqb s key
  | _ => false
  end.

Definition is_substring (pat s : string) : bool :=
  match String.index 0 pat s with
  | Some _ => true
  | None => false
  end.

Definition py_contains (key : string) (v : pyval) : result bool :=
  match v with
  | PyDict d => Ok (match dict_get key d with Some _ => true | None => false end)
  | PyList l => Ok (existsb (is_str key) l)
  | PyStr s => Ok (is_substring key s)
  | _ => Raise TypeError
  end.

(** [v[key]] for a string [key]. *)
Definition py_getitem (v : pyval) (key : string) : result pyval :=
  match v with
  | PyDict d => match dict_get key d with
                | Some x => Ok x
                | None => Raise KeyError
                end
  | _ => Raise TypeError
  end.

(** Truth value of an object, as tested by [if v:] and [and]. *)
Definition truthy (v : pyval) : bool :=
  match v with
  | PyNone => false
  | PyBool b => b
  | PyInt z => negb (z =? 0)
  | PyFloat q => negb (Qeq_bool q 0)
  | PyStr s => negb (String.eqb s "")
  | PyList l => match l with [] => false | _ => true end
  | PyDict d => match d with [] => false | _ => true end
  end.

(** Lists and dicts cannot be hashed: they are rejected as set members and
    as components of a dict key. *)
Definition hashable (v : pyval) : bool :=
  match v with
  | PyList _ | PyDict _ => false
  | _ => true
  end.

(** Equality of hashable values as keys: numbers compare by value across
    [bool], [int] and [float]; everything else by type and content. *)
Definition numeric_value (v : pyval) : option Q :=
  match v with
  | PyBool b => Some (inject_Z (Z.b2z b))
  | PyInt z => Some (inject_Z z)
  | PyFloat q => Some q
  | _ => None
  end.

Definition key_eqb (a b : pyval) : bool :=
  match numeric_value a, numeric_value b with
  | Some x, Some y => Qeq_bool x y
  | None, None =>
      match a, b with
      | PyNone, PyNone => true
      | PyStr s, PyStr t => String.eqb s t
      | _, _ => false
      end
  | _, _ => false
  end.

(** ** Floats

    A Python [float] is an IEEE binary64 value, here a [spec_float] with 53
    bits of precision. *)

Abbreviation float := spec_float.

Definition fadd : float -> float -> float := SFadd 53 1024.
Definition float_of_Z (z : Z) : float := binary_normalize 53 1024 z 0 false.
Definition fzero : float := S754_zero false.
Definition fone : float := float_of_Z 1.

(** [a / b] on two [int]s: the exact quotient rounded once to the nearest
    float (ties to even), [ZeroDivisionError] for a zero divisor and
    [OverflowError] when the quotient is too large for a float.  The quotient
    is computed with at least 55 bits and a sticky bit before rounding. *)
Definition truediv (a b : Z) : result float :=
  if b =? 0 then Raise ZeroDivisionError else
  let neg := xorb (a <? 0) (b <? 0) in
  let n := Z.abs a in
  let d := Z.abs b in
  let k := Z.max 0 (Z.log2 d - Z.log2 n + 55) in
  let q := (n * 2 ^ k) / d in
  let sticky := if (n * 2 ^ k) mod d =? 0 then 0 else 1 in
  let m := 2 * q + sticky in
  match binary_normalize 53 1024 (if neg then - m else m) (- k - 1) neg with
  | S754_infinity _ => Raise OverflowError
  | f => Ok f
  end.

(** Numbers stored in a feature map: Python [int]s and floats. *)
Inductive num : Type :=
| NInt (z : Z)
| NFloat (f : float).

Definition to_float (x : num) : float :=
  match x with
  | NInt z => float_of_Z z
  | NFloat f => f
  end.

(** ** [np.array] on a list of numbers

    Each element is given a type by its value: an [int] is an [int64] when
    it fits, else a [uint64] when it fits, else an object; a float is a
    [float64].  The array has the common type of its elements: an object
    array and an integer array hold the elements as they are, a [float64]
    array holds each one rounded to a float.  An [int64] and a [uint64]
    have no common integer type: they meet in [float64]. *)

Inductive dtype : Set := Int64 | UInt64 | Float64 | Object.

Definition dtype_of (x : num) : dtype :=
  match x with
  | NFloat _ => Float64
  | NInt z =>
      if (- 2 ^ 63 <=? z) && (z <? 2 ^ 63) then Int64
      else if (2 ^ 63 <=? z) && (z <? 2 ^ 64) then UInt64
      else Object
  end.

Definition common_dtype (a b : dtype) : dtype :=
  match a, b with
  | Object, _ | _, Object => Object
  | Int64, Int64 => Int64
  | UInt64, UInt64 => UInt64
  | _, _ => Float64
  end.

Definition array_dtype (l : list num) : dtype :=
  match l with
  | [] => Float64
  | x :: rest => fold_left common_dtype (map dtype_of rest) (dtype_of x)
  end.

Definition np_array (l : list num) : list num :=
  match array_dtype l with
  | Float64 => map (fun x => NFloat (to_float x)) l
  | _ => l
  end.

(** ** Timestamps

    A [datetime] with microsecond resolution; [fromisoformat] yields an aware
    one when the string carries a UTC offset, [datetime.now()] a naive one.
    Ordering a naive against an aware datetime raises [TypeError]. *)

Inductive datetime : Set :=
| Naive (us : Z)
| Aware (us : Z).

Definition dt_ge (a b : datetime) : result bool :=
  match a, b with
  | Naive x, Naive y => Ok (y <=? x)
  | Aware x, Aware y => Ok (y <=? x)
  | _, _ => Raise TypeError
  end.

(** [(a - b).total_seconds()] *)
Definition dt_diff_us (a b : datetime) : result Z :=
  match a, b with
  | Naive x, Naive y => Ok (x - y)
  | Aware x, Aware y => Ok (x - y)
  | _, _ => Raise TypeError
  end.

Definition total_seconds (us : Z) : result float := truediv us 1000000.

(** ** Library functions the extractor calls

    The built-ins [int(str)] and [datetime.fromisoformat] ([None] when they
    raise [ValueError]) and the numpy reductions, applied by the source to
    non-empty lists only. *)

Class PyBuiltins := {
  int_of_str : string -> option Z;
  fromisoformat : string -> option datetime
}.

Class Numpy := {
  np_mean : list num -> num;
  np_std : list num -> num;
  np_min : list num -> num;
  np_max : list num -> num
}.

(** ** The window aggregator: [FeatureExtractor] *)

Record packet : Type := {
  timestamp : datetime;
  layers : pyval
}.

(** [deque(maxlen=n).append(x)]: the new element enters on the right and the
    deque keeps its last [n] elements. *)
Definition deque_append {A} (maxlen : nat) (x : A) (d : list A) : list A :=
  drop (length (d ++ [x]) - maxlen)%nat (d ++ [x]).

(** [self.packet_buffer = deque(maxlen=10000)] *)
Definition packet_buffer_maxlen : nat := Z.to_nat 10000.

Record FeatureExtractor : Type := {
  window_size : Z;
  packet_buffer : list packet
}.

Definition new_extractor (window_size : Z) : FeatureExtractor :=
  {| window_size := window_size; packet_buffer := [] |}.

Inductive protocol : Set := Tcp | Udp | Icmp | Other.

(** [protocol_counts], a [defaultdict(int)] read at its four keys only. *)
Record protocol_counts : Set := {
  n_tcp : Z; n_udp : Z; n_icmp : Z; n_other : Z
}.

Definition no_counts : protocol_counts :=
  {| n_tcp := 0; n_udp := 0; n_icmp := 0; n_other := 0 |}.

Definition bump (c : protocol) (k : protocol_counts) : protocol_counts :=
  match c with
  | Tcp => {| n_tcp := n_tcp k + 1; n_udp := n_udp k; n_icmp := n_icmp k; n_other := n_other k |}
  | Udp => {| n_tcp := n_tcp k; n_udp := n_udp k + 1; n_icmp := n_icmp k; n_other := n_other k |}
  | Icmp => {| n_tcp := n_tcp k; n_udp := n_udp k; n_icmp := n_icmp k + 1; n_other := n_other k |}
  | Other => {| n_tcp := n_tcp k; n_udp := n_udp k; n_icmp := n_icmp k; n_other := n_other k + 1 |}
  end.

Definition count_of (c : protocol) (k : protocol_counts) : Z :=
  match c with
  | Tcp => n_tcp k | Udp => n_udp k | Icmp => n_icmp k | Other => n_other k
  end.

(** The flow table of [_extract_flow_features]: a dict from the key
    [(src_ip, dst_ip, src_port, dst_port)] to the flow's data, in insertion
    order. *)
Definition flow_key : Type := pyval * pyval * pyval * pyval.

Record flow : Type := {
  fl_packets : list packet;
  start_time : option datetime;
  end_time : option datetime
}.

Definition new_flow : flow :=
  {| fl_packets := []; start_time := None; end_time := None |}.

Definition flow_key_eqb (a b : flow_key) : bool :=
  let '(a1, a2, a3, a4) := a in
  let '(b1, b2, b3, b4) := b in
  key_eqb a1 b1 && key_eqb a2 b2 && key_eqb a3 b3 && key_eqb a4 b4.

Definition pair_eqb (a b : pyval * pyval) : bool :=
  key_eqb (fst a) (fst b) && key_eqb (snd a) (snd b).

(** [s.add(x)] on a set kept as the list of its members. *)
Definition set_add {A} (eqb : A -> A -> bool) (x : A) (s : list A) : list A :=
  if existsb (eqb x) s then s else s ++ [x].

(** The 21 feature names in the order of [get_feature_vector]. *)
Definition feature_order : list string :=
  [ "packet_count"; "packet_rate"; "total_bytes"; "byte_rate";
    "tcp_ratio"; "udp_ratio"; "icmp_ratio"; "other_ratio";
    "num_flows"; "avg_flow_duration"; "max_flow_duration";
    "avg_packets_per_flow"; "max_packets_per_flow";
    "unique_sources"; "unique_destinations"; "unique_connections";
    "connection_diversity";
    "avg_packet_size"; "min_packet_size"; "max_packet_size";
    "std_packet_size" ].

Definition _get_default_features : gmap string num :=
  <["packet_count" := NInt 0]> (<["packet_rate" := NInt 0]> (
  <["total_bytes" := NInt 0]> (<["byte_rate" := NInt 0]> (
  <["tcp_ratio" := NInt 0]> (<["udp_ratio" := NInt 0]> (
  <["icmp_ratio" := NInt 0]> (<["other_ratio" := NInt 0]> (
  <["num_flows" := NInt 0]> (<["avg_flow_duration" := NInt 0]> (
  <["max_flow_duration" := NInt 0]> (<["avg_packets_per_flow" := NInt 0]> (
  <["max_packets_per_flow" := NInt 0]> (<["unique_sources" := NInt 0]> (
  <["unique_destinations" := NInt 0]> (<["unique_connections" := NInt 0]> (
  <["connection_diversity" := NInt 0]> (<["avg_packet_size" := NInt 0]> (
  <["min_packet_size" := NInt 0]> (<["max_packet_size" := NInt 0]> (
  <["std_packet_size" := NInt 0]> ∅)))))))))))))))))))).

Section Extractor.
Context `{PyBuiltins} `{Numpy}.

(** One iteration of the loop of [add_packets]: the dict literal evaluates
    [datetime.fromisoformat(packet['timestamp'])], then
    [packet.get('layers', {})]. *)
Definition ingest_record (pkt : pyval) : result packet :=
  ts ← py_getitem pkt "timestamp";
  t ← match ts with
      | PyStr s => match fromisoformat s with
                   | Some d => Ok d
                   | None => Raise ValueError
                   end
      | _ => Raise TypeError
      end;
  match pkt with
  | PyDict d => Ok {| timestamp := t;
                      layers := default (PyDict []) (dict_get "layers" d) |}
  | _ => Raise TypeError
  end.

(** [add_packets]: the buffer is mutated in place, so the records appended
    before an exception stay appended. *)
Fixpoint add_packets (packets : list pyval) (buf : list packet)
  : list packet * result unit :=
  match packets with
  | [] => (buf, Ok tt)
  | pkt :: rest =>
      match ingest_record pkt with
      | Ok r => add_packets rest (deque_append packet_buffer_maxlen r buf)
      | Raise e => (buf, Raise e)
      end
  end.

(** [[p for p in self.packet_buffer if p['timestamp'] >= window_start]] *)
Fixpoint window_filter (window_start : datetime) (buf : list packet)
  : result (list packet) :=
  match buf with
  | [] => Ok []
  | p :: rest =>
      b ← dt_ge (timestamp p) window_start;
      r ← window_filter window_start rest;
      Ok (if b : bool then p :: r else r)
  end.

(** The protocol of a record: the first of tcp, udp, icmp that is a key
    of its layers. *)
Definition classify (layers : pyval) : result protocol :=
  t ← py_contains "tcp" layers;
  if t : bool then Ok Tcp else
  u ← py_contains "udp" layers;
  if u : bool then Ok Udp else
  i ← py_contains "icmp" layers;
  if i : bool then Ok Icmp else Ok Other.

(** What one record adds to [total_bytes] in [extract_features].  A list
    value only rebinds the local [ip_len]: the addition sits in the
    [elif] branch and is not reached. *)
Definition byte_count (layers : pyval) : result Z :=
  has_ip ← py_contains "ip" layers;
  if has_ip : bool then
    ip_layer ← py_getitem layers "ip";
    match ip_layer with
    | PyDict d =>
        match default (PyDict []) (dict_get "ip_len" d) with
        | PyList _ => Ok 0
        | PyInt z => Ok z
        | PyBool b => Ok (Z.b2z b)
        | PyStr s => Ok (default 0 (int_of_str s))
        | _ => Ok 0
        end
    | _ => Ok 0
    end
  else Ok 0.

Fixpoint protocol_loop (packets : list packet) (counts : protocol_counts)
    (total_bytes : Z) : result (protocol_counts * Z) :=
  match packets with
  | [] => Ok (counts, total_bytes)
  | p :: rest =>
      c ← classify (layers p);
      b ← byte_count (layers p);
      protocol_loop rest (bump c counts) (total_bytes + b)
  end.

(** [layer.get(name, [''])[0] if isinstance(layer.get(name), list)
     else layer.get(name, '')] *)
Definition read_field (layer : list (string * pyval)) (name : string)
  : result pyval :=
  match dict_get name layer with
  | Some (PyList l) => match l with
                       | [] => Raise IndexError
                       | x :: _ => Ok x
                       end
  | Some v => Ok v
  | None => Ok (PyStr "")
  end.

(** The pair of fields read from one layer when the layer is a dict;
    the variables keep their initial [None] otherwise. *)
Definition read_pair (layers : pyval) (layer_name f1 f2 : string)
  : result (pyval * pyval) :=
  layer ← py_getitem layers layer_name;
  match layer with
  | PyDict d =>
      a ← read_field d f1;
      b ← read_field d f2;
      Ok (a, b)
  | _ => Ok (PyNone, PyNone)
  end.

Definition flow_key_of (layers : pyval) : result flow_key :=
  has_ip ← py_contains "ip" layers;
  '(src_ip, dst_ip) ← (if has_ip : bool
                        then read_pair layers "ip" "ip_src" "ip_dst"
                        else Ok (PyNone, PyNone));
  has_tcp ← py_contains "tcp" layers;
  '(src_port, dst_port) ←
    (if has_tcp : bool
     then read_pair layers "tcp" "tcp_srcport" "tcp_dstport"
     else
       has_udp ← py_contains "udp" layers;
       if has_udp : bool
       then read_pair layers "udp" "udp_srcport" "udp_dstport"
       else Ok (PyNone, PyNone));
  Ok (src_ip, dst_ip, src_port, dst_port).

Definition key_hashable (k : flow_key) : bool :=
  let '(a, b, c, d) := k in
  hashable a && hashable b && hashable c && hashable d.

(** [flows[flow_key]] updated with one packet; a key not yet in the table
    is entered at the end with the default flow. *)
Definition touch (p : packet) (f : flow) : flow :=
  {| fl_packets := fl_packets f ++ [p];
     start_time := match start_time f with
                   | None => Some (timestamp p)
                   | Some t => Some t
                   end;
     end_time := Some (timestamp p) |}.

Fixpoint flows_update (k : flow_key) (p : packet)
    (flows : list (flow_key * flow)) : list (flow_key * flow) :=
  match flows with
  | [] => [(k, touch p new_flow)]
  | (k', f) :: rest =>
      if flow_key_eqb k' k then (k', touch p f) :: rest
      else (k', f) :: flows_update k p rest
  end.

Fixpoint flows_loop (packets : list packet) (flows : list (flow_key * flow))
  : result (list (flow_key * flow)) :=
  match packets with
  | [] => Ok flows
  | p :: rest =>
      k ← flow_key_of (layers p);
      let '(src_ip, dst_ip, _, _) := k in
      if truthy src_ip && truthy dst_ip then
        if key_hashable k then flows_loop rest (flows_update k p flows)
        else Raise TypeError
      else flows_loop rest flows
  end.

(** The second loop of [_extract_flow_features]: one duration and one
    packet count per flow whose two times are set. *)
Fixpoint flow_statistics (flows : list (flow_key * flow))
  : result (list num * list num) :=
  match flows with
  | [] => Ok ([], [])
  | (_, f) :: rest =>
      match start_time f, end_time f with
      | Some st, Some en =>
          us ← dt_diff_us en st;
          duration ← total_seconds us;
          '(ds, cs) ← flow_statistics rest;
          Ok (NFloat duration :: ds,
              NInt (Z.of_nat (length (fl_packets f))) :: cs)
      | _, _ => flow_statistics rest
      end
  end.

Definition reduce_or_zero (f : list num -> num) (l : list num) : num :=
  match l with
  | [] => NInt 0
  | _ => f l
  end.

Definition _extract_flow_features (packets : list packet)
  : result (gmap string num) :=
  flows ← flows_loop packets [];
  '(flow_durations, flow_packet_counts) ← flow_statistics flows;
  Ok (<["num_flows" := NInt (Z.of_nat (length flows))]> (
      <["avg_flow_duration" := reduce_or_zero np_mean flow_durations]> (
      <["max_flow_duration" := reduce_or_zero np_max flow_durations]> (
      <["avg_packets_per_flow" := reduce_or_zero np_mean flow_packet_counts]> (
      <["max_packets_per_flow" := reduce_or_zero np_max flow_packet_counts]>
      ∅))))).

(** [_extract_connection_features]: the three sets after the loop. *)
Definition add_if_truthy (v : pyval) (s : list pyval) : result (list pyval) :=
  if truthy v then
    if hashable v then Ok (set_add key_eqb v s) else Raise TypeError
  else Ok s.

Fixpoint connections_loop (packets : list packet)
    (sources destinations : list pyval) (connections : list (pyval * pyval))
  : result (list pyval * list pyval * list (pyval * pyval)) :=
  match packets with
  | [] => Ok (sources, destinations, connections)
  | p :: rest =>
      has_ip ← py_contains "ip" (layers p);
      if has_ip : bool then
        ip_layer ← py_getitem (layers p) "ip";
        match ip_layer with
        | PyDict d =>
            src_ip ← read_field d "ip_src";
            dst_ip ← read_field d "ip_dst";
            sources' ← add_if_truthy src_ip sources;
            destinations' ← add_if_truthy dst_ip destinations;
            connections_loop rest sources' destinations'
              (if truthy src_ip && truthy dst_ip
               then set_add pair_eqb (src_ip, dst_ip) connections
               else connections)
        | _ => connections_loop rest sources destinations connections
        end
      else connections_loop rest sources destinations connections
  end.

Definition _extract_connection_features (packets : list packet)
  : result (gmap string num) :=
  '(us, ud, cs) ← connections_loop packets [] [] [];
  let n_us := Z.of_nat (length us) in
  let n_ud := Z.of_nat (length ud) in
  let n_cs := Z.of_nat (length cs) in
  diversity ← truediv n_cs (Z.max (n_us * n_ud) 1);
  Ok (<["unique_sources" := NInt n_us]> (
      <["unique_destinations" := NInt n_ud]> (
      <["unique_connections" := NInt n_cs]> (
      <["connection_diversity" := NFloat diversity]> ∅)))).

(** [_extract_size_features]: the sizes appended by one record.  As in
    [extract_features], a list value only rebinds the local [ip_len]. *)
Definition packet_size (layers : pyval) : result (option Z) :=
  has_ip ← py_contains "ip" layers;
  if has_ip : bool then
    ip_layer ← py_getitem layers "ip";
    match ip_layer with
    | PyDict d =>
        match default (PyDict []) (dict_get "ip_len" d) with
        | PyList _ => Ok None
        | PyInt z => Ok (Some z)
        | PyBool b => Ok (Some (Z.b2z b))
        | PyStr s => Ok (int_of_str s)
        | _ => Ok None
        end
    | _ => Ok None
    end
  else Ok None.

Fixpoint sizes_loop (packets : list packet) : result (list Z) :=
  match packets with
  | [] => Ok []
  | p :: rest =>
      s ← packet_size (layers p);
      r ← sizes_loop rest;
      Ok (match s with Some z => z :: r | None => r end)
  end.

Definition _extract_size_features (packets : list packet)
  : result (gmap string num) :=
  packet_sizes ← sizes_loop packets;
  let sizes := map NInt packet_sizes in
  Ok (<["avg_packet_size" := reduce_or_zero np_mean sizes]> (
      <["min_packet_size" := reduce_or_zero np_min sizes]> (
      <["max_packet_size" := reduce_or_zero np_max sizes]> (
      <["std_packet_size" := reduce_or_zero np_std sizes]> ∅)))).

(** [extract_features], with [now] the value of [datetime.now()] in
    microseconds.  [window_size] is an [int] small enough for
    [now - timedelta(seconds=window_size)] to be a date. *)
Definition extract_features (self : FeatureExtractor) (now : Z)
  : result (gmap string num) :=
  match packet_buffer self with
  | [] => Ok _get_default_features
  | _ =>
    let window_start := Naive (now - 1000000 * window_size self) in
    window_packets ← window_filter window_start (packet_buffer self);
    match window_packets with
    | [] => Ok _get_default_features
    | _ =>
      let packet_count := Z.of_nat (length window_packets) in
      packet_rate ← truediv packet_count (window_size self);
      '(counts, total_bytes) ← protocol_loop window_packets no_counts 0;
      byte_rate ← (if 0 <? window_size self
                   then NFloat <$> truediv total_bytes (window_size self)
                   else Ok (NInt 0));
      let total_protocol :=
        n_tcp counts + n_udp counts + n_icmp counts + n_other counts in
      ratio ← (if 0 <? total_protocol
               then
                 t ← truediv (n_tcp counts) total_protocol;
                 u ← truediv (n_udp counts) total_protocol;
                 i ← truediv (n_icmp counts) total_protocol;
                 o ← truediv (n_other counts) total_protocol;
                 Ok (NFloat t, NFloat u, NFloat i, NFloat o)
               else Ok (NInt 0, NInt 0, NInt 0, NInt 0));
      let '(tcp_ratio, udp_ratio, icmp_ratio, other_ratio) := ratio in
      let features : gmap string num :=
        <["other_ratio" := other_ratio]> (
        <["icmp_ratio" := icmp_ratio]> (
        <["udp_ratio" := udp_ratio]> (
        <["tcp_ratio" := tcp_ratio]> (
        <["byte_rate" := byte_rate]> (
        <["total_bytes" := NInt total_bytes]> (
        <["packet_rate" := NFloat packet_rate]> (
        <["packet_count" := NInt packet_count]> ∅))))))) in
      flow_features ← _extract_flow_features window_packets;
      let features := flow_features ∪ features in
      connection_features ← _extract_connection_features window_packets;
      let features := connection_features ∪ features in
      size_features ← _extract_size_features window_packets;
      Ok (size_features ∪ features)
    end
  end.

(** [get_feature_vector]: the array of [features.get(key, 0)] for each
    name in order. *)
Definition get_feature_vector (self : FeatureExtractor) (now : Z)
  : result (list num) :=
  features ← extract_features self now;
  Ok (np_array
        (map (fun key => default (NInt 0) (features !! key)) feature_order)).
End Extractor.

(** ** Instances of the library functions, for evaluation

    The properties below are stated for every instance; these are used to
    evaluate the functions on sample records, and cover part of what the
    library functions accept.  [decimal_int] reads a decimal literal with
    an optional sign, with no blanks and no underscores, and
    [iso_datetime] a timestamp of the form [YYYY-MM-DDTHH:MM:SS], with no
    fraction of a second and no UTC offset: on these strings they return
    what [int] and [datetime.fromisoformat] return, and on every other
    string [None], also where Python accepts the string.  The maximum and
    the minimum are taken over the array of the list.  The mean and the
    deviation sum from left to right: they agree with numpy on lists of at
    most eight numbers that are floats or [int64] (numpy sums longer lists
    pairwise). *)

Definition digit_value (c : ascii) : option Z :=
  let n := Z.of_nat (nat_of_ascii c) in
  if (48 <=? n) && (n <=? 57) then Some (n - 48) else None.

Fixpoint digits_value (s : string) (acc : Z) : option Z :=
  match s with
  | EmptyString => Some acc
  | String c s' =>
      match digit_value c with
      | Some d => digits_value s' (10 * acc + d)
      | None => None
      end
  end.

Definition unsigned_int (s : string) : option Z :=
  match s with
  | EmptyString => None
  | _ => digits_value s 0
  end.

Definition decimal_int (s : string) : option Z :=
  match s with
  | String "-" s' => Z.opp <$> unsigned_int s'
  | String "+" s' => unsigned_int s'
  | _ => unsigned_int s
  end.

Definition is_leap (y : Z) : bool :=
  (y mod 4 =? 0) && (negb (y mod 100 =? 0) || (y mod 400 =? 0)).

Definition days_in_month (y m : Z) : Z :=
  if m =? 2 then (if is_leap y then 29 else 28)
  else if (m =? 4) || (m =? 6) || (m =? 9) || (m =? 11) then 30 else 31.

(** Days from 1970-01-01 to the given date of the Gregorian calendar. *)
Definition days_from_civil (y m d : Z) : Z :=
  let y' := if m <=? 2 then y - 1 else y in
  let era := y' / 400 in
  let yoe := y' - era * 400 in
  let doy := (153 * (if 2 <? m then m - 3 else m + 9) + 2) / 5 + d - 1 in
  let doe := yoe * 365 + yoe / 4 - yoe / 100 + doy in
  era * 146097 + doe - 719468.

Definition field (s : string) (start len : nat) : option Z :=
  let f := substring start len s in
  if (String.length f =? len)%nat then digits_value f 0 else None.

Definition iso_datetime (s : string) : option datetime :=
  if negb (String.length s =? 19)%nat then None else
  if negb (String.eqb (substring 4 1 s) "-" && String.eqb (substring 7 1 s) "-"
           && String.eqb (substring 10 1 s) "T"
           && String.eqb (substring 13 1 s) ":"
           && String.eqb (substring 16 1 s) ":") then None else
  y ← field s 0 4; m ← field s 5 2; d ← field s 8 2;
  hh ← field s 11 2; mm ← field s 14 2; ss ← field s 17 2;
  if (1 <=? y) && (1 <=? m) && (m <=? 12) && (1 <=? d)
     && (d <=? days_in_month y m) && (hh <? 24) && (mm <? 60) && (ss <? 60)
  then Some (Naive ((((days_from_civil y m d * 24 + hh) * 60 + mm) * 60 + ss)
                    * 1000000))
  else None.

#[local] Instance decimal_builtins : PyBuiltins :=
  {| int_of_str := decimal_int; fromisoformat := iso_datetime |}.

Definition num_ltb (a b : num) : bool :=
  match a, b with
  | NInt x, NInt y => x <? y
  | _, _ => SFltb (to_float a) (to_float b)
  end.

Definition seq_sum (l : list float) : float := fold_left fadd l fzero.

Definition seq_mean (l : list num) : num :=
  NFloat (SFdiv 53 1024 (seq_sum (map to_float l))
                        (float_of_Z (Z.of_nat (length l)))).

Definition seq_std (l : list num) : num :=
  let mu := to_float (seq_mean l) in
  let sq x := let d := SFsub 53 1024 (to_float x) mu in SFmul 53 1024 d d in
  NFloat (SFsqrt 53 1024
            (SFdiv 53 1024 (seq_sum (map sq l))
                           (float_of_Z (Z.of_nat (length l))))).

Definition seq_max (l : list num) : num :=
  match np_array l with
  | [] => NInt 0
  | x :: r => fold_left (fun a b => if num_ltb a b then b else a) r x
  end.

Definition seq_min (l : list num) : num :=
  match np_array l with
  | [] => NInt 0
  | x :: r => fold_left (fun a b => if num_ltb b a then b else a) r x
  end.

#[local] Instance seq_numpy : Numpy :=
  {| np_mean := seq_mean; np_std := seq_std;
     np_min := seq_min; np_max := seq_max |}.

(** ** The ingestion buffer: [queue.Queue(maxsize=buffer_size)]

    The queue of [TrafficCapture] and [SimulatedTrafficCapture], by the
    operations one thread performs on it.  As in the [queue] module, a queue
    whose [maxsize] is not positive is unbounded. *)

Section CaptureQueue.
Context {A : Type}.

Record Queue : Type := {
  maxsize : Z;
  items : list A
}.

Definition new_queue (maxsize : Z) : Queue :=
  {| maxsize := maxsize; items := [] |}.

Definition qsize (q : Queue) : Z := Z.of_nat (length (items q)).

Definition full (q : Queue) : bool :=
  (0 <? maxsize q) && (maxsize q <=? qsize q).

Definition put_nowait (x : A) (q : Queue) : result Queue :=
  if full q then Raise QueueFull
  else Ok {| maxsize := maxsize q; items := items q ++ [x] |}.

Definition get_nowait (q : Queue) : result (A * Queue) :=
  match items q with
  | [] => Raise QueueEmpty
  | x :: rest => Ok (x, {| maxsize := maxsize q; items := rest |})
  end.

(** The statement both producers use to enqueue a record:
    [put_nowait]; on [Full], [get_nowait] then [put_nowait] again, with
    [Empty] swallowed.  A [Full] raised by the second [put_nowait] is not
    handled here. *)
Definition push (x : A) (q : Queue) : Queue * result unit :=
  match put_nowait x q with
  | Ok q' => (q', Ok tt)
  | Raise QueueFull =>
      match get_nowait q with
      | Ok (_, q1) =>
          match put_nowait x q1 with
          | Ok q2 => (q2, Ok tt)
          | Raise e => (q1, Raise e)
          end
      | Raise QueueEmpty => (q, Ok tt)
      | Raise e => (q, Raise e)
      end
  | Raise e => (q, Raise e)
  end.

(** A run of pushes; it stops at the first one that raises. *)
Fixpoint push_all (xs : list A) (q : Queue) : Queue * result unit :=
  match xs with
  | [] => (q, Ok tt)
  | x :: rest =>
      match push x q with
      | (q', Ok _) => push_all rest q'
      | (q', Raise e) => (q', Raise e)
      end
  end.

(** [get_packets]: the loop leaves at the first [Empty] or once
    [max_packets] records are collected. *)
Definition get_packets (max_packets : nat) (q : Queue) : list A * Queue :=
  (take max_packets (items q),
   {| maxsize := maxsize q; items := drop max_packets (items q) |}).
End CaptureQueue.
Arguments Queue A : clear implicits.

(** ** The scoring port: [AnomalyDetector]

    A float score is the rational it denotes, and every float operation is
    the exact operation followed by the rounding [rnd].  The fitted scaler
    and models are external: they are given by their results on a batch. *)

Definition batch : Type := list (list num).

Class FloatArith := { rnd : Q -> Q }.

Class Sklearn := {
  scaler_transform : batch -> result batch;
  iforest_predict : batch -> result (list Z);
  iforest_score_samples : batch -> result (list Q);
  (** [np.mean((X - model.predict(X)) ** 2, axis=...)] of the autoencoder and
      of the LSTM; [None] when the computation raises *)
  autoencoder_mse : batch -> option (list Q);
  lstm_mse : batch -> option (list Q);
  (** [np.percentile(mse, 90)] *)
  percentile_90 : list Q -> option Q
}.

Record AnomalyDetector : Type := {
  model_type : string;
  has_model : bool;
  is_trained : bool
}.

(** The float [1e-8], exactly. *)
Definition eps : Q := 3022314549036573 # 302231454903657293676544.

Section Detector.
Context `{FloatArith} `{Sklearn}.

Definition np_ones (n : nat) : list Z := repeat 1 n.
Definition np_zeros (n : nat) : list Q := repeat 0%Q n.

Definition threshold_predictions (mse : list Q) : option (list Z) :=
  threshold ← percentile_90 mse;
  Some (map (fun e => if Qle_bool e threshold then 1 else -1) mse).

Definition _predict_autoencoder (self : AnomalyDetector) (X_scaled : batch)
  : list Z :=
  if negb (has_model self) then np_ones (length X_scaled)
  else default (np_ones (length X_scaled))
               (autoencoder_mse X_scaled ≫= threshold_predictions).

Definition _predict_lstm (self : AnomalyDetector) (X_scaled : batch)
  : list Z :=
  if negb (has_model self) then np_ones (length X_scaled)
  else default (np_ones (length X_scaled))
               (lstm_mse X_scaled ≫= threshold_predictions).

Definition predict (self : AnomalyDetector) (X : batch) : result (list Z) :=
  if negb (is_trained self) then Ok (np_ones (length X))
  else
    X_scaled ← scaler_transform X;
    if String.eqb (model_type self) "isolation_forest" then
      if has_model self then iforest_predict X_scaled
      else Raise AttributeError
    else if String.eqb (model_type self) "autoencoder" then
      Ok (_predict_autoencoder self X_scaled)
    else if String.eqb (model_type self) "lstm" then
      Ok (_predict_lstm self X_scaled)
    else Ok (np_ones (length X)).

Definition _score_autoencoder (self : AnomalyDetector) (X_scaled : batch)
  : list Q :=
  if negb (has_model self) then np_zeros (length X_scaled)
  else default (np_zeros (length X_scaled)) (autoencoder_mse X_scaled).

Definition _score_lstm (self : AnomalyDetector) (X_scaled : batch)
  : list Q :=
  if negb (has_model self) then np_zeros (length X_scaled)
  else default (np_zeros (length X_scaled)) (lstm_mse X_scaled).

(** The scores of a trained model before normalization. *)
Definition raw_scores (self : AnomalyDetector) (X : batch)
  : result (list Q) :=
  X_scaled ← scaler_transform X;
  if String.eqb (model_type self) "isolation_forest" then
    if has_model self then map Qopp <$> iforest_score_samples X_scaled
    else Raise AttributeError
  else if String.eqb (model_type self) "autoencoder" then
    Ok (_score_autoencoder self X_scaled)
  else if String.eqb (model_type self) "lstm" then
    Ok (_score_lstm self X_scaled)
  else Ok (np_zeros (length X)).

(** [(scores - scores.min()) / (scores.max() - scores.min() + 1e-8)];
    [min] of an empty array raises [ValueError]. *)
Definition scores_min (s0 : Q) (rest : list Q) : Q := fold_left Qmin rest s0.
Definition scores_max (s0 : Q) (rest : list Q) : Q := fold_left Qmax rest s0.

Definition normalize (scores : list Q) : result (list Q) :=
  match scores with
  | [] => Raise ValueError
  | s0 :: rest =>
      let lo := scores_min s0 rest in
      let hi := scores_max s0 rest in
      let den := rnd (rnd (hi - lo) + eps) in
      Ok (map (fun s => rnd (rnd (s - lo) / den)) scores)
  end.

Definition predict_proba (self : AnomalyDetector) (X : batch)
  : result (list Q) :=
  if negb (is_trained self) then Ok (np_zeros (length X))
  else
    scores ← raw_scores self X;
    normalize scores.
End Detector.

(** ** The agent: [FogAgent] and its capture source

    Threads are not run: [start_capture] and [start] count the threads they
    launch, and the analysis loop is given, cycle by cycle, the records the
    capture thread has pushed since the last cycle.  The lines sent to the
    loggers are collected in [logged]. *)

Inductive log_entry : Type :=
| LogInfo (msg : string)
| LogWarning (msg : string)
| LogError (msg : string)
(** the [NORMAL]/[ANOMALY] line of [_log_detection] *)
| LogStatus (is_anomaly : bool) (score : Q).

Inductive process : Set := Running | Terminated.

Record Capture : Type := {
  simulated : bool;
  interface : string;
  is_capturing : bool;
  capture_queue : Queue pyval;
  capture_threads : nat;
  tshark_process : option process
}.

Definition set_capturing (b : bool) (c : Capture) : Capture :=
  {| simulated := simulated c; interface := interface c; is_capturing := b;
     capture_queue := capture_queue c; capture_threads := capture_threads c;
     tshark_process := tshark_process c |}.

Definition set_queue (q : Queue pyval) (c : Capture) : Capture :=
  {| simulated := simulated c; interface := interface c;
     is_capturing := is_capturing c;
     capture_queue := q; capture_threads := capture_threads c;
     tshark_process := tshark_process c |}.

Definition launch_capture_thread (c : Capture) : Capture :=
  {| simulated := simulated c; interface := interface c;
     is_capturing := is_capturing c;
     capture_queue := capture_queue c;
     capture_threads := S (capture_threads c);
     tshark_process := tshark_process c |}.

Definition terminate_process (c : Capture) : Capture :=
  {| simulated := simulated c; interface := interface c;
     is_capturing := is_capturing c;
     capture_queue := capture_queue c; capture_threads := capture_threads c;
     tshark_process := match tshark_process c with
                       | Some _ => Some Terminated
                       | None => None
                       end |}.

(** [start_capture] and [stop_capture] of the two capture classes, with the
    lines they log. *)
Definition start_capture (c : Capture) : Capture * list log_entry :=
  if is_capturing c then
    (c, if simulated c then [] else [LogWarning "Capture already running"])
  else
    (launch_capture_thread (set_capturing true c),
     [LogInfo ((if simulated c
                then "Started simulated traffic capture on interface "
                else "Started traffic capture on interface ")
               +:+ interface c)]).

Definition stop_capture (c : Capture) : Capture * list log_entry :=
  if simulated c then
    (set_capturing false c, [LogInfo "Stopped simulated traffic capture"])
  else
    (terminate_process (set_capturing false c),
     [LogInfo "Stopped traffic capture"]).

Inductive severity : Set := HIGH | MEDIUM.

Record DetectionRecord : Type := {
  dr_timestamp : Z;
  dr_node_id : string;
  dr_is_anomaly : bool;
  dr_anomaly_score : Q;
  dr_features : gmap string num;
  dr_packet_count : num;
  dr_packet_rate : num;
  dr_byte_rate : num
}.

Record AlertRecord : Type := {
  al_timestamp : Z;
  al_node_id : string;
  al_severity : severity;
  al_anomaly_score : Q;
  al_features : gmap string num;
  al_action : string
}.

Record FogAgent : Type := {
  node_id : string;
  capture : Capture;
  feature_extractor : FeatureExtractor;
  anomaly_detector : AnomalyDetector;
  is_running : bool;
  analysis_threads : nat;
  detection_count : Z;
  normal_count : Z;
  logged : list log_entry;
  detections_file : list DetectionRecord;
  alerts_file : list AlertRecord
}.

Definition with_capture (c : Capture) (a : FogAgent) : FogAgent :=
  {| node_id := node_id a; capture := c;
     feature_extractor := feature_extractor a;
     anomaly_detector := anomaly_detector a; is_running := is_running a;
     analysis_threads := analysis_threads a;
     detection_count := detection_count a; normal_count := normal_count a;
     logged := logged a; detections_file := detections_file a;
     alerts_file := alerts_file a |}.

Definition with_buffer (buf : list packet) (a : FogAgent) : FogAgent :=
  {| node_id := node_id a; capture := capture a;
     feature_extractor :=
       {| window_size := window_size (feature_extractor a);
          packet_buffer := buf |};
     anomaly_detector := anomaly_detector a; is_running := is_running a;
     analysis_threads := analysis_threads a;
     detection_count := detection_count a; normal_count := normal_count a;
     logged := logged a; detections_file := detections_file a;
     alerts_file := alerts_file a |}.

Definition with_running (b : bool) (a : FogAgent) : FogAgent :=
  {| node_id := node_id a; capture := capture a;
     feature_extractor := feature_extractor a;
     anomaly_detector := anomaly_detector a; is_running := b;
     analysis_threads := analysis_threads a;
     detection_count := detection_count a; normal_count := normal_count a;
     logged := logged a; detections_file := detections_file a;
     alerts_file := alerts_file a |}.

Definition launch_analysis_thread (a : FogAgent) : FogAgent :=
  {| node_id := node_id a; capture := capture a;
     feature_extractor := feature_extractor a;
     anomaly_detector := anomaly_detector a; is_running := is_running a;
     analysis_threads := S (analysis_threads a);
     detection_count := detection_count a; normal_count := normal_count a;
     logged := logged a; detections_file := detections_file a;
     alerts_file := alerts_file a |}.

Definition count_detection (a : FogAgent) : FogAgent :=
  {| node_id := node_id a; capture := capture a;
     feature_extractor := feature_extractor a;
     anomaly_detector := anomaly_detector a; is_running := is_running a;
     analysis_threads := analysis_threads a;
     detection_count := detection_count a + 1; normal_count := normal_count a;
     logged := logged a; detections_file := detections_file a;
     alerts_file := alerts_file a |}.

Definition count_normal (a : FogAgent) : FogAgent :=
  {| node_id := node_id a; capture := capture a;
     feature_extractor := feature_extractor a;
     anomaly_detector := anomaly_detector a; is_running := is_running a;
     analysis_threads := analysis_threads a;
     detection_count := detection_count a; normal_count := normal_count a + 1;
     logged := logged a; detections_file := detections_file a;
     alerts_file := alerts_file a |}.

Definition log_lines (l : list log_entry) (a : FogAgent) : FogAgent :=
  {| node_id := node_id a; capture := capture a;
     feature_extractor := feature_extractor a;
     anomaly_detector := anomaly_detector a; is_running := is_running a;
     analysis_threads := analysis_threads a;
     detection_count := detection_count a; normal_count := normal_count a;
     logged := logged a ++ l; detections_file := detections_file a;
     alerts_file := alerts_file a |}.

Definition write_detection (r : DetectionRecord) (a : FogAgent) : FogAgent :=
  {| node_id := node_id a; capture := capture a;
     feature_extractor := feature_extractor a;
     anomaly_detector := anomaly_detector a; is_running := is_running a;
     analysis_threads := analysis_threads a;
     detection_count := detection_count a; normal_count := normal_count a;
     logged := logged a; detections_file := detections_file a ++ [r];
     alerts_file := alerts_file a |}.

Definition write_alert (r : AlertRecord) (a : FogAgent) : FogAgent :=
  {| node_id := node_id a; capture := capture a;
     feature_extractor := feature_extractor a;
     anomaly_detector := anomaly_detector a; is_running := is_running a;
     analysis_threads := analysis_threads a;
     detection_count := detection_count a; normal_count := normal_count a;
     logged := logged a; detections_file := detections_file a;
     alerts_file := alerts_file a ++ [r] |}.

(** [start] and [stop] *)
Definition start (a : FogAgent) : FogAgent :=
  if is_running a then log_lines [LogWarning "Agent already running"] a
  else
    let a := with_running true a in
    let '(c, lines) := start_capture (capture a) in
    let a := log_lines lines (with_capture c a) in
    let a := launch_analysis_thread a in
    log_lines [LogInfo ("Fog Agent " +:+ node_id a +:+ " started")] a.

Definition stop (a : FogAgent) : FogAgent :=
  let a := with_running false a in
  let '(c, lines) := stop_capture (capture a) in
  let a := log_lines lines (with_capture c a) in
  log_lines [LogInfo ("Fog Agent " +:+ node_id a +:+ " stopped")] a.

(** The floats [0.7] and [0.8], exactly. *)
Definition alert_threshold : Q := 3152519739159347 # 4503599627370496.
Definition high_threshold : Q := 3602879701896397 # 4503599627370496.

(** The sinks: whether [json.dumps] accepts a feature map, and whether a
    file can be opened and appended to. *)
Class Sinks := {
  json_serializable : gmap string num -> bool;
  append_ok : string -> bool
}.

(** What one cycle of the analysis loop meets: the records pushed by the
    capture thread since the last cycle, and the clock readings of
    [extract_features], [get_feature_vector] and the log record. *)
Record cycle_input : Type := {
  arrivals : list pyval;
  t_extract : Z;
  t_vector : Z;
  t_log : Z
}.

(** Statements of the agent: they change the agent and may raise. *)
Definition agentM (A : Type) : Type := FogAgent -> FogAgent * result A.

#[global] Instance agentM_ret : MRet agentM := fun A x a => (a, Ok x).
#[global] Instance agentM_bind : MBind agentM := fun A B f m a =>
  match m a with
  | (a', Ok x) => f x a'
  | (a', Raise e) => (a', Raise e)
  end.

Definition lift {A} (r : result A) : agentM A := fun a => (a, r).
Definition modify (f : FogAgent -> FogAgent) : agentM unit :=
  fun a => (f a, Ok tt).
Definition get {A} (f : FogAgent -> A) : agentM A := fun a => (a, Ok (f a)).

Section Agent.
Context `{PyBuiltins} `{Numpy} `{FloatArith} `{Sklearn} `{Sinks}.

Definition _log_detection (now : Z) (features : gmap string num)
    (is_anomaly : bool) (anomaly_score : Q) (a : FogAgent) : FogAgent :=
  let log_entry :=
    {| dr_timestamp := now; dr_node_id := node_id a;
       dr_is_anomaly := is_anomaly; dr_anomaly_score := anomaly_score;
       dr_features := features;
       dr_packet_count := default (NInt 0) (features !! "packet_count");
       dr_packet_rate := default (NInt 0) (features !! "packet_rate");
       dr_byte_rate := default (NInt 0) (features !! "byte_rate") |} in
  let log_file := "logs/fog_" +:+ node_id a +:+ "_detections.jsonl" in
  let a := if json_serializable features && append_ok log_file
           then write_detection log_entry a
           else log_lines [LogError "Error writing log"] a in
  log_lines [LogStatus is_anomaly anomaly_score] a.

Definition _handle_anomaly (now : Z) (features : gmap string num)
    (anomaly_score : Q) : agentM unit :=
  modify (log_lines [LogWarning "ANOMALY DETECTED!"]);;
  lift (if json_serializable features then Ok tt else Raise TypeError);;
  modify (log_lines [LogWarning "Features"]);;
  node ← get node_id;
  let alert :=
    {| al_timestamp := now; al_node_id := node;
       al_severity := if Qle_bool anomaly_score high_threshold
                      then MEDIUM else HIGH;
       al_anomaly_score := anomaly_score; al_features := features;
       al_action := "logged" |} in
  let alert_file := "logs/fog_" +:+ node +:+ "_alerts.jsonl" in
  modify (if append_ok alert_file then write_alert alert
          else log_lines [LogError "Error writing alert"]).

(** The body of the [try] of one iteration of [_analysis_loop]. *)
Definition cycle_body (i : cycle_input) : agentM unit :=
  q ← get (fun a => capture_queue (capture a));
  let '(packets, q') := get_packets 1000 q in
  modify (fun a => with_capture (set_queue q' (capture a)) a);;
  match packets with
  | [] => mret tt
  | _ =>
    (fun a =>
       let '(buf, r) :=
         add_packets packets (packet_buffer (feature_extractor a)) in
       (with_buffer buf a, r));;
    extractor ← get feature_extractor;
    features ← lift (extract_features extractor (t_extract i));
    feature_vector ← lift (get_feature_vector extractor (t_vector i));
    match feature_vector with
    | [] => mret tt
    | _ =>
      detector ← get anomaly_detector;
      prediction ← lift (predict detector [feature_vector]);
      score ← lift (predict_proba detector [feature_vector]);
      p0 ← lift (match prediction with
                 | [] => Raise IndexError
                 | p :: _ => Ok p
                 end);
      anomaly_score ← lift (match score with
                            | [] => Raise IndexError
                            | s :: _ => Ok s
                            end);
      let is_anomaly := p0 =? -1 in
      modify (_log_detection (t_log i) features is_anomaly anomaly_score);;
      if is_anomaly && negb (Qle_bool anomaly_score alert_threshold) then
        _handle_anomaly (t_log i) features anomaly_score;;
        modify count_detection
      else modify count_normal
    end
  end.

(** One iteration: the capture thread has pushed [arrivals]; an exception
    of the body is logged and the iteration ends. *)
Definition analysis_cycle (i : cycle_input) (a : FogAgent) : FogAgent :=
  let q := fst (push_all (arrivals i) (capture_queue (capture a))) in
  match cycle_body i (with_capture (set_queue q (capture a)) a) with
  | (a', Ok _) => a'
  | (a', Raise _) => log_lines [LogError "Error in analysis loop"] a'
  end.

Fixpoint run_cycles (inputs : list cycle_input) (a : FogAgent) : FogAgent :=
  match inputs with
  | [] => a
  | i :: rest =>
      if is_running a then run_cycles rest (analysis_cycle i a) else a
  end.

Definition _analysis_loop (inputs : list cycle_input) (a : FogAgent)
  : FogAgent :=
  run_cycles inputs (log_lines [LogInfo "Analysis loop started"] a).
End Agent.

(** * Vocabulary of the properties *)

(** Whether a call returned. *)
Definition is_ok {A} (r : result A) : bool :=
  match r with
  | Ok _ => true
  | Raise _ => false
  end.

(** ** Sample records *)

Definition record_at (us : Z) (l : pyval) : packet :=
  {| timestamp := Naive us; layers := l |}.

(** A record whose only layer holds one field, bound to the given value. *)
Definition one_field (layer name : string) (v : pyval) : pyval :=
  PyDict [(layer, PyDict [(name, v)])].

Definition extractor_of (buf : list packet) : FeatureExtractor :=
  {| window_size := 60; packet_buffer := buf |}.

(** The six address and port fields, each bound to an empty list. *)
Definition empty_field_records : list pyval :=
  [ one_field "ip" "ip_src" (PyList []);
    one_field "ip" "ip_dst" (PyList []);
    one_field "tcp" "tcp_srcport" (PyList []);
    one_field "tcp" "tcp_dstport" (PyList []);
    one_field "udp" "udp_srcport" (PyList []);
    one_field "udp" "udp_dstport" (PyList []) ].

Definition lookup_feature (key : string) (r : result (gmap string num))
  : result (option num) :=
  (fun f : gmap string num => f !! key) <$> r.

(** Six in-window records: one udp, four icmp, one with no known layer. *)
Definition six_records : list packet :=
  map (record_at 100)
      [ PyDict [("udp", PyDict [])];
        PyDict [("icmp", PyDict [])]; PyDict [("icmp", PyDict [])];
        PyDict [("icmp", PyDict [])]; PyDict [("icmp", PyDict [])];
        PyDict [("arp", PyDict [])] ].

Definition ratio_sum (f : gmap string num) : option float :=
  match f !! "tcp_ratio", f !! "udp_ratio", f !! "icmp_ratio",
        f !! "other_ratio" with
  | Some (NFloat t), Some (NFloat u), Some (NFloat i), Some (NFloat o) =>
      Some (fadd (fadd (fadd t u) i) o)
  | _, _, _, _ => None
  end.

(** ** Dates

    The range of [datetime], [0001-01-01T00:00:00] to
    [9999-12-31T23:59:59.999999], in microseconds from the epoch: outside
    it [now - timedelta(seconds=window_size)] raises [OverflowError]. *)

Definition datetime_min : Z := days_from_civil 1 1 1 * 86400000000.
Definition datetime_max : Z :=
  (days_from_civil 9999 12 31 + 1) * 86400000000 - 1.

Definition in_date_range (us : Z) : Prop :=
  datetime_min <= us <= datetime_max.

(** A record stamped with a UTC offset, and a clock reading two days
    later. *)
Definition aware_record : packet :=
  {| timestamp := Aware 1704067200000000; layers := PyDict [] |}.

Definition two_days_later : Z := 1704067200000000 + 2 * 86400000000.

(** ** Protocol classes *)

#[global] Instance protocol_eq_dec : EqDecision protocol.
Proof. solve_decision. Defined.

(** The class of a record, by the first key found among tcp, udp, icmp. *)
Inductive has_class (l : pyval) : protocol -> Prop :=
| class_tcp :
    py_contains "tcp" l = Ok true -> has_class l Tcp
| class_udp :
    py_contains "tcp" l = Ok false -> py_contains "udp" l = Ok true ->
    has_class l Udp
| class_icmp :
    py_contains "tcp" l = Ok false -> py_contains "udp" l = Ok false ->
    py_contains "icmp" l = Ok true -> has_class l Icmp
| class_other :
    py_contains "tcp" l = Ok false -> py_contains "udp" l = Ok false ->
    py_contains "icmp" l = Ok false -> has_class l Other.

Definition occurrences (c : protocol) (classes : list protocol) : Z :=
  Z.of_nat (length (filter (fun c' => c' = c) classes)).

(** ** Feature names, by the function that writes them *)

Definition flow_names : list string :=
  ["num_flows"; "avg_flow_duration"; "max_flow_duration";
   "avg_packets_per_flow"; "max_packets_per_flow"].

Definition connection_names : list string :=
  ["unique_sources"; "unique_destinations"; "unique_connections";
   "connection_diversity"].

Definition size_names : list string :=
  ["avg_packet_size"; "min_packet_size"; "max_packet_size";
   "std_packet_size"].

(** ** Records that cannot be ingested *)

Section Malformed.
Context `{PyBuiltins}.

(** What is wrong with a record on which [add_packets] raises, and the
    exception it raises. *)
Inductive malformed : pyval -> exn -> Prop :=
| not_a_dict v :
    (forall d, v <> PyDict d) -> malformed v TypeError
| no_timestamp d :
    dict_get "timestamp" d = None -> malformed (PyDict d) KeyError
| timestamp_not_str d v :
    dict_get "timestamp" d = Some v -> (forall s, v <> PyStr s) ->
    malformed (PyDict d) TypeError
| timestamp_not_iso d s :
    dict_get "timestamp" d = Some (PyStr s) -> fromisoformat s = None ->
    malformed (PyDict d) ValueError.
End Malformed.

(** A well-formed record and one without a timestamp. *)
Definition good_record : pyval :=
  PyDict [("timestamp", PyStr "2024-01-01T00:00:00");
          ("layers", PyDict [("tcp", PyDict [])])].

Definition untimed_record : pyval :=
  PyDict [("layers", PyDict [("tcp", PyDict [])])].

(** ** Laws of the arithmetic and of the fitted models *)

(** Rounding to a float, on values in the range of the floats: it depends
    on the value only, is monotone, keeps a float, and 0, 1 and [1e-8] are
    floats. *)
Class RoundingLaws `{FloatArith} : Prop := {
  rnd_proper : forall x y, (x == y)%Q -> (rnd x == rnd y)%Q;
  rnd_monotone : forall x y, (x <= y)%Q -> (rnd x <= rnd y)%Q;
  rnd_idempotent : forall x, (rnd (rnd x) == rnd x)%Q;
  rnd_0 : (rnd 0 == 0)%Q;
  rnd_1 : (rnd 1 == 1)%Q;
  rnd_eps : (rnd eps == eps)%Q
}.

(** The scaler and the models return one row, or one score, per row of
    their input. *)
Class RowWise `{Sklearn} : Prop := {
  scaler_rows : forall X Y, scaler_transform X = Ok Y -> length Y = length X;
  iforest_rows :
    forall X l, iforest_score_samples X = Ok l -> length l = length X;
  autoencoder_rows :
    forall X l, autoencoder_mse X = Some l -> length l = length X;
  lstm_rows : forall X l, lstm_mse X = Some l -> length l = length X
}.

(** Arithmetic without rounding error. *)
#[local] Instance exact_arith : FloatArith := {| rnd := fun q => q |}.

(** A fitted model that calls every row an anomaly, with raw score
    [-1/2]. *)
#[local] Instance alarmist : Sklearn :=
  {| scaler_transform := fun X => Ok X;
     iforest_predict := fun X => Ok (map (fun _ => -1) X);
     iforest_score_samples := fun X => Ok (map (fun _ => (-1 # 2)%Q) X);
     autoencoder_mse := fun X => Some (map (fun _ => 1%Q) X);
     lstm_mse := fun X => Some (map (fun _ => 1%Q) X);
     percentile_90 := fun l => Some 0%Q |}.

Definition untrained_detector : AnomalyDetector :=
  {| model_type := "isolation_forest"; has_model := false;
     is_trained := false |}.

Definition trained_detector : AnomalyDetector :=
  {| model_type := "isolation_forest"; has_model := true;
     is_trained := true |}.

(** ** The agent *)

(** Sinks that accept every record. *)
#[local] Instance working_sinks : Sinks :=
  {| json_serializable := fun _ => true; append_ok := fun _ => true |}.

(** The agent [FogAgent()] builds with its default arguments, once the
    given detector is loaded or fitted. *)
Definition new_agent (detector : AnomalyDetector) : FogAgent :=
  {| node_id := "fog1";
     capture := {| simulated := true; interface := "any";
                   is_capturing := false; capture_queue := new_queue 1000;
                   capture_threads := 0; tshark_process := None |};
     feature_extractor := new_extractor 60;
     anomaly_detector := detector;
     is_running := false; analysis_threads := 0;
     detection_count := 0; normal_count := 0;
     logged := []; detections_file := []; alerts_file := [] |}.

(** An agent without its log. *)
Definition forget_log (a : FogAgent) : FogAgent :=
  {| node_id := node_id a; capture := capture a;
     feature_extractor := feature_extractor a;
     anomaly_detector := anomaly_detector a; is_running := is_running a;
     analysis_threads := analysis_threads a;
     detection_count := detection_count a; normal_count := normal_count a;
     logged := []; detections_file := detections_file a;
     alerts_file := alerts_file a |}.

(** The two lines one call of [stop] logs. *)
Definition stop_lines (a : FogAgent) : list log_entry :=
  [ LogInfo (if simulated (capture a)
             then "Stopped simulated traffic capture"
             else "Stopped traffic capture");
    LogInfo ("Fog Agent " +:+ node_id a +:+ " stopped") ].

(** No alert between two states of the agent. *)
Definition unalerted (a b : FogAgent) : Prop :=
  detection_count b = detection_count a /\ alerts_file b = alerts_file a.

(** A statement of the agent raises no alert, and its result satisfies
    [Q]. *)
Definition keeps_alerts {A} (m : agentM A) (Q : A -> Prop) : Prop :=
  forall a, unalerted a (fst (m a)) /\ forall x, snd (m a) = Ok x -> Q x.

(** One cycle in which a record arrives. *)
Definition one_arrival : cycle_input :=
  {| arrivals := [good_record]; t_extract := 1704067201000000;
     t_vector := 1704067201000000; t_log := 1704067201000000 |}.

(** A fitted isolation forest whose raw anomaly score of a row is the
    row's first feature, when that is an [int]. *)
Definition first_feature_forest : Sklearn :=
  {| scaler_transform := fun X => Ok X;
     iforest_predict := fun X => Ok (map (fun _ => 1) X);
     iforest_score_samples := fun X =>
       Ok (map (fun row => match row with
                           | NInt z :: _ => inject_Z (- z)
                           | _ => 0%Q
                           end) X);
     autoencoder_mse := fun X => None;
     lstm_mse := fun X => None;
     percentile_90 := fun l => None |}.

(** ** Vocabulary of the further properties *)

(** The layers of a record in which one of the address or port fields the
    flow key is read from is an empty list.  The udp ports are read only
    when the record has no tcp layer. *)
Inductive empty_field (d : list (string * pyval)) : Prop :=
| empty_ip_field ip name :
    dict_get "ip" d = Some (PyDict ip) ->
    name = "ip_src" \/ name = "ip_dst" ->
    dict_get name ip = Some (PyList []) -> empty_field d
| empty_tcp_field tcp name :
    dict_get "tcp" d = Some (PyDict tcp) ->
    name = "tcp_srcport" \/ name = "tcp_dstport" ->
    dict_get name tcp = Some (PyList []) -> empty_field d
| empty_udp_field udp name :
    dict_get "tcp" d = None ->
    dict_get "udp" d = Some (PyDict udp) ->
    name = "udp_srcport" \/ name = "udp_dstport" ->
    dict_get name udp = Some (PyList []) -> empty_field d.


(** The sum of a list of sizes. *)
Definition sum_sizes (sizes : list Z) : Z := foldr Z.add 0 sizes.

(** An extractor whose window has no length. *)
Definition zero_window (buf : list packet) : FeatureExtractor :=
  {| window_size := 0; packet_buffer := buf |}.

(** The layers of a tcp record of 500 bytes with both addresses and both
    ports. *)
Definition flow_layers : pyval :=
  PyDict [("ip", PyDict [("ip_src", PyStr "10.0.0.1");
                         ("ip_dst", PyStr "10.0.0.2");
                         ("ip_len", PyInt 500)]);
          ("tcp", PyDict [("tcp_srcport", PyInt 80);
                          ("tcp_dstport", PyInt 443)])].

(** ** The producer's statement beside a running consumer

    [get_packets] runs in the analysis thread while a capture thread
    pushes.  Each queue operation is atomic; between the producer's failed
    [put_nowait] and its [get_nowait] the consumer removes [k1] records,
    and [k2] more before the second [put_nowait]. *)

Definition consume {A} (k : nat) (q : Queue A) : Queue A :=
  snd (get_packets k q).

Definition push_racing {A} (x : A) (k1 k2 : nat) (q : Queue A)
  : Queue A * result unit :=
  match put_nowait x q with
  | Ok q' => (q', Ok tt)
  | Raise QueueFull =>
      let q := consume k1 q in
      match get_nowait q with
      | Ok (_, q1) =>
          let q1 := consume k2 q1 in
          match put_nowait x q1 with
          | Ok q2 => (q2, Ok tt)
          | Raise e => (q1, Raise e)
          end
      | Raise QueueEmpty => (q, Ok tt)
      | Raise e => (q, Raise e)
      end
  | Raise e => (q, Raise e)
  end.

(** Numbers [np.array] can hold in a [float64] array: floats, and [int]s
    within [int64] or [uint64]. *)
Definition fits_64_bits (y : num) : Prop :=
  match y with
  | NInt z => - 2 ^ 63 <= z < 2 ^ 64
  | NFloat _ => True
  end.

Definition is_float (y : num) : Prop :=
  match y with
  | NInt _ => False
  | NFloat _ => True
  end.

(** A trained autoencoder, and fitted models whose reconstruction error is
    1 on every row, with the percentile of a one-element array. *)
Definition autoencoder_detector : AnomalyDetector :=
  {| model_type := "autoencoder"; has_model := true; is_trained := true |}.

Definition unit_error_models : Sklearn :=
  {| scaler_transform := fun X => Ok X;
     iforest_predict := fun X => Ok (map (fun _ => 1) X);
     iforest_score_samples := fun X => Ok (map (fun _ => 0%Q) X);
     autoencoder_mse := fun X => Some (map (fun _ => 1%Q) X);
     lstm_mse := fun X => Some (map (fun _ => 1%Q) X);
     percentile_90 := fun l => match l with
                               | [e] => Some e
                               | _ => None
                               end |}.

(** One cycle in which three records arrive, the second without
    timestamp. *)
Definition malformed_arrival : cycle_input :=
  {| arrivals := [good_record; untimed_record; good_record];
     t_extract := 1704067201000000; t_vector := 1704067201000000;
     t_log := 1704067201000000 |}.
(** * Properties *)

(** ** Inversion of the monadic steps *)

Lemma bind_Ok {A B} (m : result A) (k : A -> result B) (b : B) :
  m ≫= k = Ok b -> exists a, m = Ok a /\ k a = Ok b.
Proof. destruct m as [a|e]; [eauto | discriminate]. Qed.

Lemma fmap_Ok {A B} (g : A -> B) (m : result A) (b : B) :
  g <$> m = Ok b -> exists a, m = Ok a /\ b = g a.
Proof.
  destruct m as [a|e]; [|discriminate].
  intros [= <-]. eauto.
Qed.

Lemma is_ok_returns {A} (r : result A) : is_ok r = true -> returns r.
Proof. destruct r as [a|e]; [by exists a | discriminate]. Qed.

Ltac inv_bind H :=
  let x := fresh "x" in
  let Hx := fresh "Hx" in
  apply bind_Ok in H; destruct H as (x & Hx & H).

(** ** The empty window *)

Section EmptyWindow.
Context `{PyBuiltins} `{Numpy}.

Lemma window_filter_all_old ws buf :
  Forall (fun p => dt_ge (timestamp p) ws = Ok false) buf ->
  window_filter ws buf = Ok [].
Proof.
  induction 1 as [|p buf Hp _ IH]; simpl; [reflexivity|].
  rewrite Hp, IH. reflexivity.
Qed.

Lemma default_vector_zero :
  np_array (map (fun key => default (NInt 0) (_get_default_features !! key))
                feature_order) = repeat (NInt 0) 21.
Proof. vm_compute. reflexivity. Qed.

(** C3, amended. When the retained history is empty, or the window start
    [now - window_size] is a date and every retained record carries a naive
    timestamp earlier than it, [extract_features] returns normally the
    default map, in which each of the 21 feature names is bound to 0, and
    the feature vector built from it is 21 zeros. *)
Theorem extract_features_empty_window (self : FeatureExtractor) (now : Z) :
  packet_buffer self = [] \/
  (in_date_range now /\
   in_date_range (now - 1000000 * window_size self) /\
   Forall (fun p => exists us,
             timestamp p = Naive us /\
             us < now - 1000000 * window_size self)
          (packet_buffer self)) ->
  extract_features self now = Ok _get_default_features /\
  length feature_order = 21%nat /\
  NoDup feature_order /\
  Forall (fun key => _get_default_features !! key = Some (NInt 0))
         feature_order /\
  get_feature_vector self now = Ok (repeat (NInt 0) 21).
Proof.
  intros Hold.
  assert (Hx : extract_features self now = Ok _get_default_features).
  { unfold extract_features.
    destruct Hold as [-> | (_ & _ & Hold)]; [reflexivity|].
    destruct (packet_buffer self) as [|p buf] eqn:Hbuf; [reflexivity|].
    rewrite (window_filter_all_old
               (Naive (now - 1000000 * window_size self)) (p :: buf));
      [reflexivity|].
    eapply Forall_impl; [exact Hold|].
    intros q (us & Hq & Hlt). rewrite Hq. simpl. f_equal.
    apply Z.leb_gt. exact Hlt. }
  split; [exact Hx|].
  split; [reflexivity|].
  split; [apply (bool_decide_unpack _); vm_compute; exact I|].
  split.
  - repeat constructor.
  - unfold get_feature_vector. rewrite Hx.
    change (Ok (np_array
                  (map (fun key => default (NInt 0)
                          (_get_default_features !! key)) feature_order))
            = Ok (repeat (NInt 0) 21)).
    exact (f_equal Ok default_vector_zero).
Qed.
End EmptyWindow.

(** C3, as stated, fails: a history whose only record is two days old, and
    so out of the window, but stamped with a UTC offset makes
    [extract_features] and [get_feature_vector] raise [TypeError]. *)
Lemma extract_features_old_aware_record :
  extract_features (extractor_of [aware_record]) two_days_later
    = Raise TypeError /\
  get_feature_vector (extractor_of [aware_record]) two_days_later
    = Raise TypeError.
Proof. split; vm_compute; reflexivity. Qed.

(** The theorem at a buffer holding one record, 100 seconds old. *)
Lemma extract_features_empty_window_witness :
  extract_features (extractor_of [record_at 0 (PyDict [])]) 100000000
    = Ok _get_default_features /\
  get_feature_vector (extractor_of [record_at 0 (PyDict [])]) 100000000
    = Ok (repeat (NInt 0) 21).
Proof.
  destruct (extract_features_empty_window
              (extractor_of [record_at 0 (PyDict [])]) 100000000)
    as (Hx & _ & _ & _ & Hv).
  - right. split; [|split].
    + split; vm_compute; discriminate.
    + split; vm_compute; discriminate.
    + constructor; [|constructor]. exists 0. split; reflexivity.
  - split; [exact Hx | exact Hv].
Defined.

(** ** Malformed fields *)

(** C1. [extract_features] does raise on a malformed record: with a single
    in-window record whose [ip_src], [ip_dst], [tcp_srcport], [tcp_dstport],
    [udp_srcport] or [udp_dstport] is an empty list, the call ends in
    [IndexError] and no feature map is returned. *)
Theorem extract_features_raises_on_empty_field :
  Forall (fun l => extract_features (extractor_of [record_at 100 l]) 150
                   = Raise IndexError)
         empty_field_records.
Proof. repeat constructor; vm_compute; reflexivity. Qed.

(** ** Byte accounting *)

(** C2. A one-element list [ip_len] contributes nothing: for a single
    in-window record with [ip_len = [500]] the call returns
    [total_bytes = 0], [byte_rate = 0.0] and no packet size, where the same
    record with the scalar 500 gives [total_bytes = 500]. *)
Theorem list_valued_ip_len_not_counted :
  let listed := extractor_of
                  [record_at 100 (one_field "ip" "ip_len" (PyList [PyInt 500]))] in
  let scalar := extractor_of
                  [record_at 100 (one_field "ip" "ip_len" (PyInt 500))] in
  lookup_feature "total_bytes" (extract_features listed 150)
    = Ok (Some (NInt 0)) /\
  lookup_feature "byte_rate" (extract_features listed 150)
    = Ok (Some (NFloat fzero)) /\
  lookup_feature "max_packet_size" (extract_features listed 150)
    = Ok (Some (NInt 0)) /\
  lookup_feature "total_bytes" (extract_features scalar 150)
    = Ok (Some (NInt 500)) /\
  lookup_feature "max_packet_size" (extract_features scalar 150)
    = Ok (Some (NInt 500)).
Proof. repeat split; vm_compute; reflexivity. Qed.

(** ** Protocol ratios *)

(** C4, as stated, fails: for the six records of [six_records] the call
    returns and [tcp_ratio + udp_ratio + icmp_ratio + other_ratio], added as
    floats, is [0.9999999999999999] (9007199254740991 * 2^-53) and not
    [1.0]. *)
Lemma ratio_sum_below_one :
  ratio_sum <$> extract_features (extractor_of six_records) 150
    = Ok (Some (S754_finite false 9007199254740991 (-53))) /\
  S754_finite false 9007199254740991 (-53) <> fone.
Proof. split; [vm_compute; reflexivity | discriminate]. Qed.

Lemma has_class_unique l c c' : has_class l c -> has_class l c' -> c = c'.
Proof. destruct 1; destruct 1; congruence. Qed.

Lemma classify_has_class l c : classify l = Ok c <-> has_class l c.
Proof.
  unfold classify. split.
  - intros Hc.
    destruct (py_contains "tcp" l) as [[|]|] eqn:Ht; simpl in Hc;
      [injection Hc as <-; by constructor | | discriminate].
    destruct (py_contains "udp" l) as [[|]|] eqn:Hu; simpl in Hc;
      [injection Hc as <-; by constructor | | discriminate].
    destruct (py_contains "icmp" l) as [[|]|] eqn:Hi; simpl in Hc;
      [injection Hc as <-; by constructor
      |injection Hc as <-; by constructor | discriminate].
  - destruct 1;
      repeat match goal with E : py_contains _ _ = _ |- _ =>
               rewrite E; clear E end; reflexivity.
Qed.

Lemma count_of_bump c c' k :
  count_of c (bump c' k) = count_of c k + (if decide (c' = c) then 1 else 0).
Proof. destruct c, c'; simpl; lia. Qed.

Lemma occurrences_total classes :
  occurrences Tcp classes + occurrences Udp classes
  + occurrences Icmp classes + occurrences Other classes
  = Z.of_nat (length classes).
Proof.
  unfold occurrences. induction classes as [|c classes IH]; [reflexivity|].
  rewrite !filter_cons.
  destruct c; repeat case_decide; try discriminate; try congruence;
    cbn [length] in *; lia.
Qed.

(** The exact quotients of four counts by their sum add up to one. *)
Lemma exact_ratios_sum (a b c d n : Z) :
  a + b + c + d = n -> 0 < n ->
  (inject_Z a / inject_Z n + inject_Z b / inject_Z n
   + inject_Z c / inject_Z n + inject_Z d / inject_Z n == 1)%Q.
Proof.
  intros <- Hn.
  assert (Hnz : ~ (inject_Z (a + b + c + d) == 0)%Q).
  { intros E. apply (eq_sym) in E. revert E. unfold Qeq. simpl. lia. }
  rewrite !inject_Z_plus in *. field. exact Hnz.
Qed.

Lemma absent (names : list string) (m : gmap string num) key :
  dom m = list_to_set names -> bool_decide (key ∈ names) = false ->
  m !! key = None.
Proof.
  intros Hd Hk. apply not_elem_of_dom. rewrite Hd.
  rewrite elem_of_list_to_set. by apply bool_decide_eq_false in Hk.
Qed.

Section Ratios.
Context `{PyBuiltins} `{Numpy}.

Lemma protocol_loop_counts w : forall k b k' b',
  protocol_loop w k b = Ok (k', b') ->
  exists classes,
    Forall2 (fun p c => has_class (layers p) c) w classes /\
    forall c, count_of c k' = count_of c k + occurrences c classes.
Proof.
  induction w as [|p w IH]; intros k b k' b' Hl; simpl in Hl.
  - injection Hl as <- <-. exists []. split; [constructor|].
    intros c. unfold occurrences. simpl. lia.
  - inv_bind Hl. inv_bind Hl.
    apply IH in Hl as (classes & Hall & Hcount).
    exists (x :: classes). split.
    + constructor; [by apply classify_has_class | exact Hall].
    + intros c. rewrite Hcount, count_of_bump.
      unfold occurrences. rewrite filter_cons.
      destruct (decide (x = c)); simpl; lia.
Qed.

(** The steps of [extract_features] on a non-empty window. *)
Lemma extract_features_inv self now w f :
  window_filter (Naive (now - 1000000 * window_size self))
                (packet_buffer self) = Ok w ->
  w <> [] ->
  extract_features self now = Ok f ->
  exists packet_rate counts total_bytes byte_rate
         tcp_ratio udp_ratio icmp_ratio other_ratio flowf connf sizef,
    truediv (Z.of_nat (length w)) (window_size self) = Ok packet_rate /\
    protocol_loop w no_counts 0 = Ok (counts, total_bytes) /\
    (if 0 <? window_size self
     then NFloat <$> truediv total_bytes (window_size self)
     else Ok (NInt 0)) = Ok byte_rate /\
    (let total := n_tcp counts + n_udp counts + n_icmp counts
                  + n_other counts in
     if 0 <? total
     then
       t ← truediv (n_tcp counts) total;
       u ← truediv (n_udp counts) total;
       i ← truediv (n_icmp counts) total;
       o ← truediv (n_other counts) total;
       Ok (NFloat t, NFloat u, NFloat i, NFloat o)
     else Ok (NInt 0, NInt 0, NInt 0, NInt 0))
    = Ok (tcp_ratio, udp_ratio, icmp_ratio, other_ratio) /\
    _extract_flow_features w = Ok flowf /\
    _extract_connection_features w = Ok connf /\
    _extract_size_features w = Ok sizef /\
    f = sizef ∪ (connf ∪ (flowf ∪
          (<["other_ratio" := other_ratio]> (
           <["icmp_ratio" := icmp_ratio]> (
           <["udp_ratio" := udp_ratio]> (
           <["tcp_ratio" := tcp_ratio]> (
           <["byte_rate" := byte_rate]> (
           <["total_bytes" := NInt total_bytes]> (
           <["packet_rate" := NFloat packet_rate]> (
           <["packet_count" := NInt (Z.of_nat (length w))]> ∅)))))))))).
Proof.
  intros Hw Hne Hx. unfold extract_features in Hx.
  destruct (packet_buffer self) as [|p0 buf] eqn:Hbuf.
  { simpl in Hw. injection Hw as <-. congruence. }
  rewrite Hw in Hx. cbn [mbind result_bind] in Hx.
  destruct w as [|p w']; [congruence|].
  set (w := p :: w') in *.
  inv_bind Hx. rename x into packet_rate.
  inv_bind Hx. destruct x as [counts total_bytes].
  inv_bind Hx. rename x into byte_rate.
  inv_bind Hx. destruct x as [[[tr ur] ir] or].
  inv_bind Hx. rename x into flowf.
  inv_bind Hx. rename x into connf.
  inv_bind Hx. rename x into sizef.
  injection Hx as <-.
  exists packet_rate, counts, total_bytes, byte_rate, tr, ur, ir, or,
         flowf, connf, sizef.
  repeat split; assumption.
Qed.

Lemma flow_features_dom w m :
  _extract_flow_features w = Ok m -> dom m = list_to_set flow_names.
Proof.
  unfold _extract_flow_features. intros Hm.
  inv_bind Hm. inv_bind Hm. destruct x0 as [ds cs].
  injection Hm as <-.
  rewrite !dom_insert_L, dom_empty_L. reflexivity.
Qed.

Lemma connection_features_dom w m :
  _extract_connection_features w = Ok m ->
  dom m = list_to_set connection_names.
Proof.
  unfold _extract_connection_features. intros Hm.
  inv_bind Hm. destruct x as [[us ud] cs]. inv_bind Hm.
  injection Hm as <-.
  rewrite !dom_insert_L, dom_empty_L. reflexivity.
Qed.

Lemma size_features_dom w m :
  _extract_size_features w = Ok m -> dom m = list_to_set size_names.
Proof.
  unfold _extract_size_features. intros Hm.
  inv_bind Hm. injection Hm as <-.
  rewrite !dom_insert_L, dom_empty_L. reflexivity.
Qed.

(** A key written by none of the three helper functions keeps the value
    [extract_features] itself gave it. *)
Lemma lookup_own_key w flowf connf sizef key (base : gmap string num) :
  _extract_flow_features w = Ok flowf ->
  _extract_connection_features w = Ok connf ->
  _extract_size_features w = Ok sizef ->
  bool_decide (key ∈ size_names) = false ->
  bool_decide (key ∈ connection_names) = false ->
  bool_decide (key ∈ flow_names) = false ->
  (sizef ∪ (connf ∪ (flowf ∪ base))) !! key = base !! key.
Proof.
  intros Hflow Hconn Hsize K1 K2 K3.
  rewrite lookup_union_r
    by (eapply absent; [eapply size_features_dom|]; eassumption).
  rewrite lookup_union_r
    by (eapply absent; [eapply connection_features_dom|]; eassumption).
  rewrite lookup_union_r
    by (eapply absent; [eapply flow_features_dom|]; eassumption).
  reflexivity.
Qed.

(** C4, amended. On a non-empty window, whenever [extract_features]
    returns, each selected record has exactly one class, found in the
    order tcp, udp, icmp, other; the four class counts add up to the number
    of selected records; each returned ratio is the float quotient of its
    class count by that number; and the exact quotients add up to one (the
    float ratios only up to rounding). *)
Theorem protocol_ratios_partition self now w f :
  window_filter (Naive (now - 1000000 * window_size self))
                (packet_buffer self) = Ok w ->
  w <> [] ->
  extract_features self now = Ok f ->
  exists classes t u i o,
    Forall2 (fun p c => has_class (layers p) c
                        /\ forall c', has_class (layers p) c' -> c' = c)
            w classes /\
    let total := Z.of_nat (length w) in
    let n c := occurrences c classes in
    n Tcp + n Udp + n Icmp + n Other = total /\
    truediv (n Tcp) total = Ok t /\ f !! "tcp_ratio" = Some (NFloat t) /\
    truediv (n Udp) total = Ok u /\ f !! "udp_ratio" = Some (NFloat u) /\
    truediv (n Icmp) total = Ok i /\ f !! "icmp_ratio" = Some (NFloat i) /\
    truediv (n Other) total = Ok o /\ f !! "other_ratio" = Some (NFloat o) /\
    (inject_Z (n Tcp) / inject_Z total + inject_Z (n Udp) / inject_Z total
     + inject_Z (n Icmp) / inject_Z total
     + inject_Z (n Other) / inject_Z total == 1)%Q.
Proof.
  intros Hw Hne Hx.
  destruct (extract_features_inv _ _ _ _ Hw Hne Hx)
    as (pr & counts & tb & br & tr & ur & ir & or & flowf & connf & sizef
        & _ & Hloop & _ & Hratio & Hflow & Hconn & Hsize & ->).
  destruct (protocol_loop_counts _ _ _ _ _ Hloop) as (classes & Hall & Hcnt).
  assert (Hlen : length classes = length w)
    by (symmetry; eapply Forall2_length; exact Hall).
  pose proof (occurrences_total classes) as Htot. rewrite Hlen in Htot.
  assert (Hpos : 0 < Z.of_nat (length w))
    by (destruct w; [congruence | simpl; lia]).
  assert (Ht : n_tcp counts = occurrences Tcp classes)
    by (pose proof (Hcnt Tcp) as E; simpl in E; lia).
  assert (Hu : n_udp counts = occurrences Udp classes)
    by (pose proof (Hcnt Udp) as E; simpl in E; lia).
  assert (Hi : n_icmp counts = occurrences Icmp classes)
    by (pose proof (Hcnt Icmp) as E; simpl in E; lia).
  assert (Ho : n_other counts = occurrences Other classes)
    by (pose proof (Hcnt Other) as E; simpl in E; lia).
  cbv zeta in Hratio. rewrite Ht, Hu, Hi, Ho, Htot in Hratio.
  destruct (0 <? Z.of_nat (length w)) eqn:Hlt; [|lia].
  inv_bind Hratio. rename x into t. inv_bind Hratio. rename x into u.
  inv_bind Hratio. rename x into i. inv_bind Hratio. rename x into o.
  injection Hratio as <- <- <- <-.
  exists classes, t, u, i, o.
  split.
  { eapply Forall2_impl; [exact Hall|]. intros p c Hc. split; [exact Hc|].
    intros c' Hc'. eapply has_class_unique; eassumption. }
  cbv zeta.
  repeat split; try assumption;
    try (rewrite (lookup_own_key _ _ _ _ _ _ Hflow Hconn Hsize)
           by reflexivity;
         rewrite ?lookup_insert_ne by done; apply lookup_insert_eq).
  apply exact_ratios_sum; assumption.
Qed.
End Ratios.

Lemma six_records_return :
  returns (extract_features (extractor_of six_records) 150).
Proof. apply is_ok_returns. vm_compute. reflexivity. Qed.

(** The theorem at the six records of [six_records]. *)
Lemma protocol_ratios_partition_witness :
  exists f classes,
    extract_features (extractor_of six_records) 150 = Ok f /\
    Forall2 (fun p c => has_class (layers p) c) six_records classes /\
    occurrences Tcp classes + occurrences Udp classes
    + occurrences Icmp classes + occurrences Other classes = 6.
Proof.
  destruct six_records_return as [f E].
  destruct (protocol_ratios_partition (extractor_of six_records) 150
              six_records f eq_refl ltac:(discriminate) E)
    as (classes & t & u & i & o & Hall & Hsum & _).
  exists f, classes. split; [exact E|]. split.
  - eapply Forall2_impl; [exact Hall|]. intros p c [Hc _]. exact Hc.
  - exact Hsum.
Defined.

(** ** Ingest *)

Section Ingest.
Context `{PyBuiltins} `{Numpy}.

(** [add_packets] raises on a record exactly when the record is malformed,
    with the exception of its defect. *)
Lemma ingest_record_raises pkt e :
  ingest_record pkt = Raise e <-> malformed pkt e.
Proof.
  unfold ingest_record. split.
  - destruct pkt as [| | | | |l|d]; simpl;
      try (intros [= <-]; apply not_a_dict; discriminate).
    destruct (dict_get "timestamp" d) as [v|] eqn:Hts; simpl;
      [|intros [= <-]; by apply no_timestamp].
    destruct v as [| | | |s| |]; simpl;
      try (intros [= <-]; eapply timestamp_not_str;
           [exact Hts | discriminate]).
    destruct (fromisoformat s) eqn:Hiso; simpl; [discriminate|].
    intros [= <-]. by eapply timestamp_not_iso.
  - destruct 1 as [v Hv|d Hts|d v Hts Hv|d s Hts Hiso].
    + destruct v; try reflexivity. by destruct (Hv d).
    + simpl. rewrite Hts. reflexivity.
    + simpl. rewrite Hts. simpl.
      destruct v; try reflexivity. by destruct (Hv s).
    + simpl. rewrite Hts. simpl. rewrite Hiso. reflexivity.
Qed.

Lemma add_packets_app pre post buf :
  add_packets (pre ++ post) buf =
  match add_packets pre buf with
  | (buf', Ok _) => add_packets post buf'
  | (buf', Raise e) => (buf', Raise e)
  end.
Proof.
  revert buf. induction pre as [|p pre IH]; intros buf; simpl; [reflexivity|].
  destruct (ingest_record p) as [r|e]; [apply IH | reflexivity].
Qed.

Lemma add_packets_well_formed pre buf :
  Forall (fun p => returns (ingest_record p)) pre ->
  exists buf', add_packets pre buf = (buf', Ok tt).
Proof.
  intros Hpre. revert buf.
  induction Hpre as [|p pre [r Hr] _ IH]; intros buf; simpl; [eauto|].
  rewrite Hr. apply IH.
Qed.

(** C10. [add_packets] raises at the first malformed record: [KeyError]
    when the record has no timestamp key, [ValueError] when its timestamp
    is not an ISO-format string ([TypeError] when the timestamp or the
    record has the wrong type).  The buffer is then the one the well-formed
    records before it leave, whatever follows: no later record is
    appended. *)
Theorem add_packets_raises_at_malformed pre bad post buf e :
  Forall (fun p => returns (ingest_record p)) pre ->
  malformed bad e ->
  exists buf',
    add_packets pre buf = (buf', Ok tt) /\
    add_packets (pre ++ bad :: post) buf = (buf', Raise e).
Proof.
  intros Hpre Hbad.
  destruct (add_packets_well_formed pre buf Hpre) as [buf' Hbuf].
  exists buf'. split; [exact Hbuf|].
  rewrite add_packets_app, Hbuf. simpl.
  apply ingest_record_raises in Hbad. rewrite Hbad. reflexivity.
Qed.
End Ingest.

(** The theorem at a record without timestamp between two well-formed
    ones. *)
Lemma add_packets_raises_at_malformed_witness :
  exists buf',
    add_packets [good_record] [] = (buf', Ok tt) /\
    add_packets ([good_record] ++ untimed_record :: [good_record]) []
      = (buf', Raise KeyError).
Proof.
  apply (add_packets_raises_at_malformed
           [good_record] untimed_record [good_record] [] KeyError).
  - constructor; [|constructor].
    apply is_ok_returns. vm_compute. reflexivity.
  - apply no_timestamp. reflexivity.
Defined.

(** ** The ingestion buffer *)

Section QueueProperties.
Context {A : Type}.
Implicit Types (q : Queue A) (x : A) (xs : list A).

Lemma push_not_full x q :
  full q = false ->
  push x q = ({| maxsize := maxsize q; items := items q ++ [x] |}, Ok tt).
Proof. intros Hf. unfold push, put_nowait. rewrite Hf. reflexivity. Qed.

(** On a full queue within its bound, [push] drops the head and appends. *)
Lemma push_full x q :
  full q = true -> qsize q <= maxsize q ->
  push x q = ({| maxsize := maxsize q; items := tl (items q) ++ [x] |}, Ok tt).
Proof.
  intros Hf Hle. unfold push, put_nowait at 1. rewrite Hf.
  unfold full, qsize in *. apply andb_prop in Hf as [Hpos Hge].
  apply Z.ltb_lt in Hpos. apply Z.leb_le in Hge.
  unfold get_nowait. destruct (items q) as [|x0 rest] eqn:Hi.
  { simpl in *. lia. }
  unfold put_nowait, full, qsize. simpl in *.
  replace (maxsize q <=? Z.of_nat (length rest)) with false
    by (symmetry; apply Z.leb_gt; lia).
  rewrite andb_false_r. reflexivity.
Qed.

Lemma push_step x q :
  0 < maxsize q -> qsize q <= maxsize q ->
  exists q',
    push x q = (q', Ok tt) /\
    maxsize q' = maxsize q /\
    qsize q' <= maxsize q /\
    items q' = (if full q then tl (items q) ++ [x] else items q ++ [x])%list /\
    items q' = drop (length (items q ++ [x]) - Z.to_nat (maxsize q))
                    (items q ++ [x]).
Proof.
  intros Hpos Hle. unfold qsize in *. destruct (full q) eqn:Hf.
  - eexists. split; [by apply push_full|]. simpl.
    unfold full, qsize in Hf. apply andb_prop in Hf as [_ Hge].
    apply Z.leb_le in Hge.
    destruct (items q) as [|x0 rest] eqn:Hi; simpl in *; [lia|].
    rewrite !length_app. simpl.
    split; [reflexivity|]. split; [lia|]. split; [reflexivity|].
    replace (S (length rest + 1) - Z.to_nat (maxsize q))%nat with 1%nat by lia.
    reflexivity.
  - eexists. split; [by apply push_not_full|]. simpl.
    unfold full, qsize in Hf.
    apply andb_false_iff in Hf as [Hf|Hf];
      [apply Z.ltb_ge in Hf; lia | apply Z.leb_gt in Hf].
    rewrite !length_app. simpl.
    split; [reflexivity|]. split; [lia|]. split; [reflexivity|].
    replace (length (items q) + 1 - Z.to_nat (maxsize q))%nat with 0%nat
      by lia.
    reflexivity.
Qed.

Lemma push_all_snoc xs x q q' :
  push_all xs q = (q', Ok tt) -> push_all (xs ++ [x]) q = push x q'.
Proof.
  revert q. induction xs as [|y xs IH]; intros q; simpl.
  - intros [= <-]. by destruct (push x q) as [q1 [[]|e]].
  - destruct (push y q) as [q1 [u|e]]; [apply IH | discriminate].
Qed.

(** C5. From a queue of capacity [maxsize > 0] holding at most [maxsize]
    records, every run of pushes succeeds and leaves at most [maxsize]
    records: the last [maxsize] of those queued and pushed, in arrival
    order.  One more push succeeds as well, and when the queue is full it
    removes the head, the oldest record, and nothing else. *)
Theorem push_keeps_most_recent q xs :
  0 < maxsize q -> qsize q <= maxsize q ->
  exists q',
    push_all xs q = (q', Ok tt) /\
    maxsize q' = maxsize q /\
    qsize q' <= maxsize q /\
    items q' = drop (length (items q ++ xs) - Z.to_nat (maxsize q))
                    (items q ++ xs) /\
    forall x, exists q'',
      push x q' = (q'', Ok tt) /\
      push_all (xs ++ [x]) q = (q'', Ok tt) /\
      items q'' = (if full q' then tl (items q') ++ [x] else items q' ++ [x])%list.
Proof.
  intros Hpos Hle.
  assert (Hrun : exists q',
    push_all xs q = (q', Ok tt) /\ maxsize q' = maxsize q /\
    qsize q' <= maxsize q /\
    items q' = drop (length (items q ++ xs) - Z.to_nat (maxsize q))
                    (items q ++ xs)).
  { revert q Hpos Hle. induction xs as [|x xs IH]; intros q Hpos Hle.
    - exists q. simpl. rewrite app_nil_r. repeat split; try lia.
      unfold qsize in Hle.
      replace (length (items q) - Z.to_nat (maxsize q))%nat with 0%nat by lia.
      reflexivity.
    - destruct (push_step x q Hpos Hle) as (q1 & Hp & Hm & Hs & _ & Hi).
      destruct (IH q1) as (q' & Hr & Hm' & Hs' & Hi'); [lia | lia |].
      exists q'. simpl. rewrite Hp.
      split; [exact Hr|]. split; [lia|]. split; [lia|].
      rewrite Hi', Hi, Hm. unfold qsize in Hle.
      rewrite <- drop_app_le by (rewrite length_app; simpl; lia).
      rewrite drop_drop, <- !app_assoc. simpl.
      f_equal. rewrite length_drop, !length_app. simpl. lia. }
  destruct Hrun as (q' & Hr & Hm & Hs & Hi).
  exists q'. repeat split; try assumption.
  intros x.
  destruct (push_step x q') as (q'' & Hp & _ & _ & Hhead & _); [lia | lia |].
  exists q''. split; [exact Hp|]. split; [|exact Hhead].
  rewrite (push_all_snoc _ _ _ _ Hr). exact Hp.
Qed.
End QueueProperties.

(** The theorem at three pushes into an empty queue of capacity two. *)
Lemma push_keeps_most_recent_witness :
  exists q',
    push_all [1; 2; 3] (new_queue 2) = (q', Ok tt) /\ items q' = [2; 3].
Proof.
  destruct (push_keeps_most_recent (new_queue 2) [1; 2; 3])
    as (q' & Hr & _ & _ & Hi & _).
  - reflexivity.
  - discriminate.
  - exists q'. split; [exact Hr | exact Hi].
Defined.

(** ** The scoring port *)

Lemma scores_min_le (rest : list Q) : forall s0 s,
  In s (s0 :: rest) -> (fold_left Qmin rest s0 <= s)%Q.
Proof.
  induction rest as [|a rest IH]; intros s0 s Hin; simpl.
  - destruct Hin as [<- | []]. apply Qle_refl.
  - destruct Hin as [<- | [<- | Hin]].
    + eapply Qle_trans; [apply IH; left; reflexivity | apply Q.le_min_l].
    + eapply Qle_trans; [apply IH; left; reflexivity | apply Q.le_min_r].
    + apply IH. right. exact Hin.
Qed.

Lemma scores_max_ge (rest : list Q) : forall s0 s,
  In s (s0 :: rest) -> (s <= fold_left Qmax rest s0)%Q.
Proof.
  induction rest as [|a rest IH]; intros s0 s Hin; simpl.
  - destruct Hin as [<- | []]. apply Qle_refl.
  - destruct Hin as [<- | [<- | Hin]].
    + eapply Qle_trans; [apply Q.le_max_l | apply IH; left; reflexivity].
    + eapply Qle_trans; [apply Q.le_max_r | apply IH; left; reflexivity].
    + apply IH. right. exact Hin.
Qed.

Lemma scores_min_equal (rest : list Q) : forall s0,
  (forall a, In a rest -> (a == s0)%Q) -> (fold_left Qmin rest s0 == s0)%Q.
Proof.
  induction rest as [|a rest IH]; intros s0 Heq; simpl; [reflexivity|].
  assert (Ha : (a == s0)%Q) by (apply Heq; left; reflexivity).
  assert (Hm : (Qmin s0 a == s0)%Q)
    by (apply Q.min_l; rewrite Ha; apply Qle_refl).
  rewrite <- Hm at 2. apply IH.
  intros b Hb. rewrite Hm. apply Heq. right. exact Hb.
Qed.

Lemma scores_min_in (rest : list Q) : forall s0,
  In (fold_left Qmin rest s0) (s0 :: rest).
Proof.
  induction rest as [|c rest IH]; intros s0; simpl; [by left|].
  destruct (IH (Qmin s0 c)) as [Hm|Hm]; [|right; by right].
  rewrite <- Hm. unfold Qmin, GenericMinMax.gmin.
  destruct (s0 ?= c)%Q; [by left | by left | right; by left].
Qed.

Lemma scores_max_in (rest : list Q) : forall s0,
  In (fold_left Qmax rest s0) (s0 :: rest).
Proof.
  induction rest as [|c rest IH]; intros s0; simpl; [by left|].
  destruct (IH (Qmax s0 c)) as [Hm|Hm]; [|right; by right].
  rewrite <- Hm. unfold Qmax, GenericMinMax.gmax.
  destruct (s0 ?= c)%Q; [by left | right; by left | by left].
Qed.

Lemma Forall2_map_self {A B} (g : A -> B) (l : list A) :
  Forall2 (fun a b => b = g a) l (map g l).
Proof. induction l as [|a l IH]; simpl; by constructor. Qed.

Lemma eps_positive : (0 < eps)%Q.
Proof. reflexivity. Qed.

Section Detector.
Context `{FloatArith} `{Sklearn}.

Lemma length_np_ones n : length (np_ones n) = n.
Proof. apply repeat_length. Qed.

Lemma length_np_zeros n : length (np_zeros n) = n.
Proof. apply repeat_length. Qed.

(** C6. On an untrained detector, whatever the batch, [predict] returns
    normally one 1 per row and [predict_proba] one 0 per row. *)
Theorem untrained_detector_defaults (self : AnomalyDetector) (X : batch) :
  is_trained self = false ->
  exists predictions scores,
    predict self X = Ok predictions /\
    length predictions = length X /\
    Forall (fun p => p = 1) predictions /\
    predict_proba self X = Ok scores /\
    length scores = length X /\
    Forall (fun s => s = 0%Q) scores.
Proof.
  intros Hu. unfold predict, predict_proba. rewrite Hu. simpl.
  exists (np_ones (length X)), (np_zeros (length X)).
  split; [reflexivity|]. split; [apply length_np_ones|].
  split; [apply List.Forall_forall; intros p Hp; by apply repeat_spec in Hp|].
  split; [reflexivity|]. split; [apply length_np_zeros|].
  apply List.Forall_forall. intros s Hs. by apply repeat_spec in Hs.
Qed.

Section Rounded.
Context `{!RoundingLaws}.

Lemma rnd_nonneg x : (0 <= x)%Q -> (0 <= rnd x)%Q.
Proof.
  intros Hx. rewrite <- rnd_0. by apply rnd_monotone.
Qed.

(** The denominator of the normalization is at least [1e-8], and at least
    the rounded range. *)
Lemma denominator_bounds (lo hi : Q) :
  (lo <= hi)%Q ->
  let den := rnd (rnd (hi - lo) + eps) in
  (eps <= den)%Q /\ (rnd (hi - lo) <= den)%Q.
Proof.
  intros Hle den.
  assert (Hr : (0 <= rnd (hi - lo))%Q).
  { apply rnd_nonneg. unfold Qminus. rewrite <- Qle_minus_iff. exact Hle. }
  split.
  - rewrite <- rnd_eps at 1. apply rnd_monotone.
    rewrite <- (Qplus_0_l eps) at 1. apply Qplus_le_compat;
      [exact Hr | apply Qle_refl].
  - rewrite <- (rnd_idempotent (hi - lo)) at 1. apply rnd_monotone.
    rewrite <- (Qplus_0_r (rnd (hi - lo))) at 1. apply Qplus_le_compat;
      [apply Qle_refl | apply Qlt_le_weak, eps_positive].
Qed.

Lemma normalized_in_unit_interval (lo hi s : Q) :
  (lo <= s)%Q -> (s <= hi)%Q ->
  let q := rnd (rnd (s - lo) / rnd (rnd (hi - lo) + eps)) in
  (0 <= q)%Q /\ (q <= 1)%Q.
Proof.
  intros Hlo Hhi q.
  destruct (denominator_bounds lo hi) as [Heps Hden];
    [eapply Qle_trans; eassumption|].
  assert (Hpos : (0 < rnd (rnd (hi - lo) + eps))%Q)
    by (eapply Qlt_le_trans; [apply eps_positive | exact Heps]).
  assert (Hnum : (0 <= rnd (s - lo))%Q).
  { apply rnd_nonneg. unfold Qminus. rewrite <- Qle_minus_iff. exact Hlo. }
  assert (Hup : (rnd (s - lo) <= rnd (hi - lo))%Q).
  { apply rnd_monotone. unfold Qminus. apply Qplus_le_compat;
      [exact Hhi | apply Qle_refl]. }
  split.
  - apply rnd_nonneg. apply Qle_shift_div_l; [exact Hpos|].
    rewrite Qmult_0_l. exact Hnum.
  - rewrite <- rnd_1. apply rnd_monotone.
    apply Qle_shift_div_r; [exact Hpos|].
    rewrite Qmult_1_l. eapply Qle_trans; eassumption.
Qed.

Lemma normalized_zero (lo s den : Q) :
  (s == lo)%Q -> (rnd (rnd (s - lo) / den) == 0)%Q.
Proof.
  intros Hs.
  assert (Hz : (rnd (s - lo) == 0)%Q).
  { rewrite <- rnd_0. apply rnd_proper. rewrite Hs. unfold Qminus.
    apply Qplus_opp_r. }
  rewrite <- rnd_0. apply rnd_proper.
  rewrite Hz. unfold Qdiv. apply Qmult_0_l.
Qed.

(** [normalize] on a non-empty array: the minimum and the maximum are
    members of the array, and each score is the rounded quotient of the
    distance to the minimum by the range plus [1e-8]. *)
Lemma normalize_min_max (raw : list Q) :
  raw <> [] ->
  exists lo hi scores,
    normalize raw = Ok scores /\
    In lo raw /\ In hi raw /\
    (forall s, In s raw -> (lo <= s)%Q /\ (s <= hi)%Q) /\
    (eps <= rnd (rnd (hi - lo) + eps))%Q /\
    Forall2 (fun s s' =>
               s' = rnd (rnd (s - lo) / rnd (rnd (hi - lo) + eps))) raw scores.
Proof.
  destruct raw as [|s0 rest]; [congruence|]. intros _.
  exists (scores_min s0 rest), (scores_max s0 rest).
  eexists. split; [reflexivity|].
  split; [apply scores_min_in|]. split; [apply scores_max_in|].
  split; [intros s Hs; split;
          [by apply scores_min_le | by apply scores_max_ge]|].
  split.
  - apply denominator_bounds.
    eapply Qle_trans; [apply (scores_min_le rest s0 s0); by left|].
    apply scores_max_ge. by left.
  - apply (Forall2_map_self
             (fun s => rnd (rnd (s - scores_min s0 rest)
                            / rnd (rnd (scores_max s0 rest
                                        - scores_min s0 rest) + eps)))).
Qed.

(** C7. On a trained detector whose model gives a non-empty array of raw
    scores, [predict_proba] returns their min-max normalization: with [lo]
    the smallest and [hi] the largest raw score, the score of a row is its
    distance to [lo] divided by [hi - lo + 1e-8], each operation rounded.
    The denominator is at least [1e-8], so nothing is divided by zero; a
    row whose raw score is [lo] gets 0; the order of the raw scores is
    kept; every score lies in [0, 1]; and when the raw scores are all equal
    every score is 0.  Every score the call returns, trained or not, lies
    in [0, 1]. *)
Theorem predict_proba_min_max_normalized (self : AnomalyDetector)
    (X : batch) :
  (forall scores, predict_proba self X = Ok scores ->
     Forall (fun s => (0 <= s)%Q /\ (s <= 1)%Q) scores) /\
  (forall raw,
     is_trained self = true -> raw_scores self X = Ok raw -> raw <> [] ->
     exists lo hi scores,
       predict_proba self X = Ok scores /\
       In lo raw /\ In hi raw /\
       (forall s, In s raw -> (lo <= s)%Q /\ (s <= hi)%Q) /\
       (eps <= rnd (rnd (hi - lo) + eps))%Q /\
       Forall2 (fun s s' =>
                  s' = rnd (rnd (s - lo) / rnd (rnd (hi - lo) + eps)) /\
                  (0 <= s')%Q /\ (s' <= 1)%Q /\
                  ((s == lo)%Q -> (s' == 0)%Q))
               raw scores /\
       (forall i j a b a' b',
          raw !! i = Some a -> raw !! j = Some b ->
          scores !! i = Some a' -> scores !! j = Some b' ->
          (a <= b)%Q -> (a' <= b')%Q) /\
       ((forall a b, In a raw -> In b raw -> (a == b)%Q) ->
        Forall (fun s => (s == 0)%Q) scores)).
Proof.
  assert (Hnorm : forall raw, raw <> [] ->
    exists lo hi scores,
      normalize raw = Ok scores /\
      In lo raw /\ In hi raw /\
      (forall s, In s raw -> (lo <= s)%Q /\ (s <= hi)%Q) /\
      (eps <= rnd (rnd (hi - lo) + eps))%Q /\
      Forall2 (fun s s' =>
                 s' = rnd (rnd (s - lo) / rnd (rnd (hi - lo) + eps)) /\
                 (0 <= s')%Q /\ (s' <= 1)%Q /\
                 ((s == lo)%Q -> (s' == 0)%Q))
              raw scores).
  { intros raw Hne.
    destruct (normalize_min_max raw Hne)
      as (lo & hi & scores & Hn & Hlo & Hhi & Hb & Hden & Hall).
    exists lo, hi, scores. repeat (split; [assumption|]).
    clear Hn Hlo Hhi Hne. revert Hb.
    induction Hall as [|s s' raw scores -> _ IH]; intros Hb; constructor.
    - split; [reflexivity|].
      destruct (Hb s) as [Hs1 Hs2]; [by left|].
      destruct (normalized_in_unit_interval lo hi s Hs1 Hs2) as [H01 H02].
      split; [exact H01|]. split; [exact H02|].
      apply normalized_zero.
    - apply IH. intros t Ht. apply Hb. by right. }
  split.
  - intros scores. unfold predict_proba.
    destruct (is_trained self); simpl.
    + destruct (raw_scores self X) as [raw|e]; simpl; [|discriminate].
      destruct raw as [|s0 rest]; [discriminate|].
      destruct (Hnorm (s0 :: rest))
        as (lo & hi & sc & Hn & _ & _ & _ & _ & Hall); [discriminate|].
      rewrite Hn. intros [= <-].
      clear Hn. induction Hall as [|s s' raw sc (_ & H0' & H1' & _) _ IH];
        constructor; [by split | exact IH].
    + intros [= <-]. apply List.Forall_forall. intros s Hs.
      apply repeat_spec in Hs. subst s. split; discriminate.
  - intros raw Ht Hraw Hne. unfold predict_proba. rewrite Ht, Hraw. simpl.
    destruct (Hnorm raw Hne)
      as (lo & hi & scores & Hn & Hlo & Hhi & Hb & Hden & Hall).
    exists lo, hi, scores. repeat (split; [assumption|]).
    assert (Hpos : (0 < rnd (rnd (hi - lo) + eps))%Q)
      by (eapply Qlt_le_trans; [apply eps_positive | exact Hden]).
    assert (Hlookup : forall i a a',
      raw !! i = Some a -> scores !! i = Some a' ->
      a' = rnd (rnd (a - lo) / rnd (rnd (hi - lo) + eps))).
    { intros i a a' Ha Ha'.
      by destruct (Forall2_lookup_lr _ _ _ _ _ _ Hall Ha Ha') as [-> _]. }
    split.
    + intros i j a b a' b' Ha Hb' Ha' Hb'' Hab.
      rewrite (Hlookup i a a' Ha Ha'), (Hlookup j b b' Hb' Hb'').
      apply rnd_monotone. unfold Qdiv.
      apply Qmult_le_compat_r; [|apply Qlt_le_weak, Qinv_lt_0_compat, Hpos].
      apply rnd_monotone. unfold Qminus.
      apply Qplus_le_compat; [exact Hab | apply Qle_refl].
    + intros Heq.
      assert (Hs : forall s, In s raw -> (s == lo)%Q)
        by (intros s Hs; by apply Heq).
      clear -Hall Hs. revert Hs.
      induction Hall as [|s s' raw scores (_ & _ & _ & Hz) _ IH];
        intros Hs; constructor.
      * apply Hz, Hs. by left.
      * apply IH. intros t Ht. apply Hs. by right.
Qed.
End Rounded.
End Detector.

Lemma exact_arith_laws : RoundingLaws.
Proof.
  split; simpl; try reflexivity.
  - intros x y Hxy. exact Hxy.
  - intros x y Hxy. exact Hxy.
Qed.

Lemma alarmist_row_wise : RowWise.
Proof.
  split; simpl; intros X l [= <-]; try reflexivity; apply length_map.
Qed.

(** The theorem at an untrained isolation forest and a batch of two
    rows. *)
Lemma untrained_detector_defaults_witness :
  exists predictions scores,
    predict untrained_detector [[NInt 1]; [NInt 2]] = Ok predictions /\
    predictions = [1; 1] /\
    predict_proba untrained_detector [[NInt 1]; [NInt 2]] = Ok scores /\
    scores = [0%Q; 0%Q].
Proof.
  destruct (untrained_detector_defaults
              untrained_detector [[NInt 1]; [NInt 2]] eq_refl)
    as (p & s & Hp & _ & _ & Hs & _ & _).
  exists p, s.
  split; [exact Hp|]. split; [by injection Hp as <-|].
  split; [exact Hs|]. by injection Hs as <-.
Defined.

Lemma in_three (lo a b c : Q) :
  In lo [a; b; c] -> lo = a \/ lo = b \/ lo = c.
Proof. intros [<-|[<-|[<-|[]]]]; auto. Qed.

(** The theorem at a fitted forest that gives three rows the raw scores 1,
    3 and 2, in exact arithmetic: the scores are 0, 2 / (2 + 1e-8) and
    1 / (2 + 1e-8). *)
Lemma predict_proba_min_max_normalized_witness :
  exists s1 s2 s3,
    @predict_proba exact_arith first_feature_forest trained_detector
      [[NInt 1]; [NInt 3]; [NInt 2]] = Ok [s1; s2; s3] /\
    (s1 == 0)%Q /\
    (99 # 100 <= s2)%Q /\ (s2 <= 1)%Q /\
    (49 # 100 <= s3)%Q /\ (s3 <= s2)%Q.
Proof.
  destruct (@predict_proba_min_max_normalized exact_arith
              first_feature_forest exact_arith_laws
              trained_detector [[NInt 1]; [NInt 3]; [NInt 2]])
    as [_ Htrained].
  destruct (Htrained [1%Q; 3%Q; 2%Q] eq_refl eq_refl ltac:(discriminate))
    as (lo & hi & scores & Hp & Hlo & Hhi & Hb & _ & Hall & _ & _).
  assert (Elo : lo = 1%Q).
  { destruct (Hb 1%Q) as [H1 _]; [by left|].
    apply in_three in Hlo as [ -> | [ -> | -> ] ];
      [reflexivity | by destruct H1 | by destruct H1]. }
  assert (Ehi : hi = 3%Q).
  { destruct (Hb 3%Q) as [_ H3]; [right; by left|].
    apply in_three in Hhi as [ -> | [ -> | -> ] ];
      [by destruct H3 | reflexivity | by destruct H3]. }
  subst lo hi.
  inversion Hall as [|a1 s1 l1 k1 (E1 & _) Hall1]; subst.
  inversion Hall1 as [|a2 s2 l2 k2 (E2 & _) Hall2]; subst.
  inversion Hall2 as [|a3 s3 l3 k3 (E3 & _) Hall3]; subst.
  inversion Hall3; subst.
  eexists _, _, _. split; [exact Hp|].
  repeat split; vm_compute; discriminate || reflexivity.
Defined.

(** ** The agent: start and stop *)

(** C8, as stated, fails: a second [stop] logs the two lines of the first
    once more. *)
Lemma stop_twice_repeats_log_lines :
  logged (stop (stop (new_agent trained_detector)))
    = [ LogInfo "Stopped simulated traffic capture";
        LogInfo "Fog Agent fog1 stopped";
        LogInfo "Stopped simulated traffic capture";
        LogInfo "Fog Agent fog1 stopped" ] /\
  logged (stop (stop (new_agent trained_detector)))
    = (logged (stop (new_agent trained_detector))
       ++ logged (stop (new_agent trained_detector)))%list /\
  ~ NoDup (logged (stop (stop (new_agent trained_detector)))).
Proof.
  assert (E : logged (stop (stop (new_agent trained_detector)))
    = [ LogInfo "Stopped simulated traffic capture";
        LogInfo "Fog Agent fog1 stopped";
        LogInfo "Stopped simulated traffic capture";
        LogInfo "Fog Agent fog1 stopped" ]) by (vm_compute; reflexivity).
  split; [exact E|]. split; [vm_compute; reflexivity|].
  rewrite E. intros Hnd. apply NoDup_cons_1_1 in Hnd. apply Hnd.
  right. left.
Qed.

Ltac open_agent a :=
  destruct a as [nid [sim itf cap q th proc] fe ad run ath dc nc lg df af].

Lemma stop_logged (a : FogAgent) :
  logged (stop a) = (logged a ++ stop_lines a)%list.
Proof.
  open_agent a. unfold stop, stop_capture, stop_lines.
  destruct sim; cbn -[String.append]; by rewrite <- app_assoc.
Qed.

Lemma stop_lines_stop (a : FogAgent) : stop_lines (stop a) = stop_lines a.
Proof. open_agent a. destruct sim; reflexivity. Qed.

Lemma forget_log_stop_stop (a : FogAgent) :
  forget_log (stop (stop a)) = forget_log (stop a).
Proof. open_agent a. destruct sim; [reflexivity|]. by destruct proc. Qed.

Lemma stop_not_running (a : FogAgent) :
  is_running (stop a) = false /\ is_capturing (capture (stop a)) = false.
Proof. open_agent a. by destruct sim. Qed.

(** C8, amended. [start] on a running agent only logs a warning: it
    launches no capture and no analysis thread and changes nothing else.
    A second [stop] raises nothing and leaves the state the first one
    left, the log apart: each call appends its two lines. *)
Theorem start_running_and_stop_twice (a b : FogAgent) :
  is_running a = true ->
  (forget_log (start a) = forget_log a /\
   logged (start a) = (logged a ++ [LogWarning "Agent already running"])%list /\
   analysis_threads (start a) = analysis_threads a /\
   capture_threads (capture (start a)) = capture_threads (capture a)) /\
  (forget_log (stop (stop b)) = forget_log (stop b) /\
   is_running (stop b) = false /\
   is_capturing (capture (stop b)) = false /\
   logged (stop b) = (logged b ++ stop_lines b)%list /\
   logged (stop (stop b))
     = (logged b ++ stop_lines b ++ stop_lines b)%list).
Proof.
  intros Hrun. split.
  - unfold start. rewrite Hrun. repeat split.
  - split; [apply forget_log_stop_stop|].
    split; [apply stop_not_running|].
    split; [apply stop_not_running|].
    split; [apply stop_logged|].
    rewrite !stop_logged, stop_lines_stop, <- app_assoc. reflexivity.
Qed.

(** The theorem at the agent just started, and at the agent just built. *)
Lemma start_running_and_stop_twice_witness :
  logged (start (start (new_agent trained_detector)))
    = [ LogInfo "Started simulated traffic capture on interface any";
        LogInfo "Fog Agent fog1 started";
        LogWarning "Agent already running" ] /\
  analysis_threads (start (start (new_agent trained_detector))) = 1%nat /\
  forget_log (stop (stop (new_agent trained_detector)))
    = forget_log (stop (new_agent trained_detector)).
Proof.
  destruct (start_running_and_stop_twice
              (start (new_agent trained_detector))
              (new_agent trained_detector) eq_refl)
    as [(_ & Hlog & Hthreads & _) (Hstate & _)].
  split; [exact Hlog|]. split; [exact Hthreads | exact Hstate].
Defined.

(** ** The agent: the analysis loop *)

Lemma unalerted_refl a : unalerted a a.
Proof. by split. Qed.

Lemma unalerted_trans a b c : unalerted a b -> unalerted b c -> unalerted a c.
Proof. intros [H1 H2] [H3 H4]. split; congruence. Qed.

Lemma keeps_ret {A} (x : A) (Q : A -> Prop) :
  Q x -> keeps_alerts (mret x) Q.
Proof.
  intros Hx a. split; [apply unalerted_refl|].
  by intros y [= <-].
Qed.

Lemma keeps_bind {A B} (m : agentM A) (k : A -> agentM B)
    (Q : A -> Prop) (R : B -> Prop) :
  keeps_alerts m Q -> (forall x, Q x -> keeps_alerts (k x) R) ->
  keeps_alerts (m ≫= k) R.
Proof.
  intros Hm Hk a. unfold mbind, agentM_bind.
  destruct (Hm a) as [Ha HQ].
  destruct (m a) as [a' [x|e]]; simpl in *.
  - destruct (Hk x (HQ x eq_refl) a') as [Ha' HR].
    split; [by eapply unalerted_trans | exact HR].
  - split; [exact Ha | discriminate].
Qed.

Lemma keeps_lift {A} (r : result A) (Q : A -> Prop) :
  (forall x, r = Ok x -> Q x) -> keeps_alerts (lift r) Q.
Proof. intros Hr a. split; [apply unalerted_refl | exact Hr]. Qed.

Lemma keeps_get {A} (f : FogAgent -> A) : keeps_alerts (get f) (fun _ => True).
Proof. intros a. split; [apply unalerted_refl | done]. Qed.

Lemma keeps_modify (f : FogAgent -> FogAgent) :
  (forall a, unalerted a (f a)) -> keeps_alerts (modify f) (fun _ => True).
Proof. intros Hf a. split; [apply Hf | done]. Qed.

Section AnalysisLoop.
Context `{PyBuiltins} `{Numpy} `{FloatArith} `{Sklearn} `{Sinks}.
Hypothesis rnd_value : forall x y, (x == y)%Q -> (rnd x == rnd y)%Q.
Hypothesis rnd_zero : (rnd 0 == 0)%Q.
Context `{!RowWise}.

Lemma raw_scores_rows self X raw :
  raw_scores self X = Ok raw -> length raw = length X.
Proof.
  unfold raw_scores. intros Hraw. inv_bind Hraw. rename x into Y.
  pose proof (scaler_rows _ _ Hx) as HY.
  destruct (String.eqb (model_type self) "isolation_forest").
  { destruct (has_model self); [|discriminate].
    apply fmap_Ok in Hraw as (l & Hl & ->).
    rewrite length_map, (iforest_rows _ _ Hl). exact HY. }
  destruct (String.eqb (model_type self) "autoencoder").
  { injection Hraw as <-. unfold _score_autoencoder.
    destruct (has_model self); simpl; [|by rewrite length_np_zeros].
    destruct (autoencoder_mse Y) as [l|] eqn:Hl; simpl;
      [by rewrite (autoencoder_rows _ _ Hl) | by rewrite length_np_zeros]. }
  destruct (String.eqb (model_type self) "lstm").
  { injection Hraw as <-. unfold _score_lstm.
    destruct (has_model self); simpl; [|by rewrite length_np_zeros].
    destruct (lstm_mse Y) as [l|] eqn:Hl; simpl;
      [by rewrite (lstm_rows _ _ Hl) | by rewrite length_np_zeros]. }
  injection Hraw as <-. apply length_np_zeros.
Qed.

Lemma single_row_score self x scores :
  predict_proba self [x] = Ok scores ->
  exists s, scores = [s] /\ (s == 0)%Q.
Proof.
  unfold predict_proba. destruct (is_trained self); simpl.
  - intros Hp. inv_bind Hp. rename x0 into raw.
    apply raw_scores_rows in Hx.
    destruct raw as [|s0 [|s1 rest]]; try discriminate.
    injection Hp as <-. eexists. split; [reflexivity|].
    unfold scores_min, scores_max. simpl.
    assert (Hz : (rnd (s0 - s0) == 0)%Q).
    { transitivity (rnd 0); [|exact rnd_zero].
      apply rnd_value. unfold Qminus. apply Qplus_opp_r. }
    transitivity (rnd 0); [|exact rnd_zero].
    apply rnd_value. generalize (rnd (rnd (s0 - s0) + eps)). intros den.
    rewrite Hz. unfold Qdiv. apply Qmult_0_l.
  - intros [= <-]. exists 0%Q. split; reflexivity.
Qed.

Lemma keeps_log_detection now features is_anomaly score a :
  unalerted a (_log_detection now features is_anomaly score a).
Proof.
  unfold _log_detection.
  by destruct (json_serializable features && append_ok _).
Qed.

Lemma cycle_body_keeps_alerts i : keeps_alerts (cycle_body i) (fun _ => True).
Proof.
  unfold cycle_body.
  apply (keeps_bind _ _ (fun _ => True)); [apply keeps_get|]. intros q _.
  destruct (get_packets 1000 q) as [packets q'].
  apply (keeps_bind _ _ (fun _ => True));
    [by apply keeps_modify|]. intros _ _.
  destruct packets as [|pkt packets]; [by apply keeps_ret|].
  apply (keeps_bind _ _ (fun _ => True)).
  { intros a.
    destruct (add_packets (pkt :: packets)
                (packet_buffer (feature_extractor a))) as [buf r].
    by split. }
  intros _ _.
  apply (keeps_bind _ _ (fun _ => True)); [apply keeps_get|].
  intros extractor _.
  apply (keeps_bind _ _ (fun _ => True)); [by apply keeps_lift|].
  intros features _.
  apply (keeps_bind _ _ (fun _ => True)); [by apply keeps_lift|].
  intros feature_vector _.
  destruct feature_vector as [|v0 vs]; [by apply keeps_ret|].
  apply (keeps_bind _ _ (fun _ => True)); [apply keeps_get|].
  intros detector _.
  apply (keeps_bind _ _ (fun _ => True)); [by apply keeps_lift|].
  intros prediction _.
  apply (keeps_bind _ _ (fun score => exists s, score = [s] /\ (s == 0)%Q)).
  { apply keeps_lift. intros scores. apply single_row_score. }
  intros score (s & -> & Hs).
  apply (keeps_bind _ _ (fun _ => True)); [by apply keeps_lift|].
  intros p0 _.
  apply (keeps_bind _ _ (fun anomaly_score => (anomaly_score == 0)%Q)).
  { apply keeps_lift. by intros y [= <-]. }
  intros anomaly_score Hscore.
  apply (keeps_bind _ _ (fun _ => True)).
  { apply keeps_modify. intros a. apply keeps_log_detection. }
  intros _ _.
  assert (Hle : Qle_bool anomaly_score alert_threshold = true).
  { apply Qle_bool_iff. rewrite Hscore. discriminate. }
  rewrite Hle, andb_false_r.
  by apply keeps_modify.
Qed.

Lemma analysis_cycle_unalerted i a : unalerted a (analysis_cycle i a).
Proof.
  unfold analysis_cycle.
  set (a0 := with_capture _ a).
  assert (H0' : unalerted a a0) by done.
  destruct (cycle_body_keeps_alerts i a0) as [Hk _].
  destruct (cycle_body i a0) as [a' [u|e]]; simpl in Hk.
  - by eapply unalerted_trans.
  - eapply unalerted_trans; [exact H0'|].
    eapply unalerted_trans; [exact Hk | done].
Qed.

Lemma run_cycles_unalerted inputs : forall a, unalerted a (run_cycles inputs a).
Proof.
  induction inputs as [|i inputs IH]; intros a; simpl;
    [apply unalerted_refl|].
  destruct (is_running a); [|apply unalerted_refl].
  eapply unalerted_trans; [apply analysis_cycle_unalerted | apply IH].
Qed.

(** C9. When rounding depends on the value only and keeps 0, and the
    fitted scaler and model return one score per row, every score
    [predict_proba] returns for a single row, trained or not, is the
    one-element array holding 0.  Hence no run of the analysis loop, which
    scores one row per cycle, changes [detection_count] or appends to the
    alerts file. *)
Theorem single_row_never_alerts :
  (forall self x scores,
     predict_proba self [x] = Ok scores ->
     exists s, scores = [s] /\ (s == 0)%Q) /\
  (forall self x,
     is_trained self = false -> predict_proba self [x] = Ok [0%Q]) /\
  (forall inputs a,
     detection_count (_analysis_loop inputs a) = detection_count a /\
     alerts_file (_analysis_loop inputs a) = alerts_file a).
Proof.
  split; [exact single_row_score|]. split.
  - intros self x Hu. unfold predict_proba. by rewrite Hu.
  - intros inputs a. unfold _analysis_loop.
    destruct (run_cycles_unalerted inputs
                (log_lines [LogInfo "Analysis loop started"] a)) as [Hd Ha].
    split; [exact Hd | exact Ha].
Qed.
End AnalysisLoop.

(** The theorem at a running agent whose fitted model calls every row an
    anomaly, over one cycle in which one record arrives. *)
Lemma single_row_never_alerts_witness :
  predict (anomaly_detector (start (new_agent trained_detector)))
          [[NInt 1]] = Ok [-1] /\
  detection_count
    (_analysis_loop [one_arrival] (start (new_agent trained_detector))) = 0 /\
  alerts_file
    (_analysis_loop [one_arrival] (start (new_agent trained_detector))) = [].
Proof.
  destruct (@single_row_never_alerts decimal_builtins seq_numpy exact_arith
              alarmist working_sinks
              (fun x y Hxy => Hxy) (Qeq_refl 0) alarmist_row_wise)
    as (_ & _ & Hloop).
  split; [reflexivity|].
  exact (Hloop [one_arrival] (start (new_agent trained_detector))).
Defined.

(** * Further properties *)

(** ** The extractor *)

Section ExtractorMore.
Context `{PyBuiltins} `{Numpy}.

(** X1. With [window_size = 0] and a record in the window,
    [extract_features] raises [ZeroDivisionError]: the packet rate is
    divided by the window size without the guard the byte rate has. *)
Theorem extract_features_zero_window self now w :
  window_size self = 0 ->
  window_filter (Naive (now - 1000000 * window_size self))
                (packet_buffer self) = Ok w ->
  w <> [] ->
  extract_features self now = Raise ZeroDivisionError.
Proof.
  intros Hz Hw Hne. unfold extract_features.
  destruct (packet_buffer self) as [|p0 buf] eqn:Hbuf.
  { simpl in Hw. injection Hw as <-. congruence. }
  rewrite Hw. cbn [mbind result_bind].
  destruct w as [|p w']; [congruence|].
  rewrite Hz. reflexivity.
Qed.

Lemma read_field_raises layer name :
  dict_get name layer = Some (PyList []) ->
  read_field layer name = Raise IndexError.
Proof. intros Hf. unfold read_field. by rewrite Hf. Qed.

Lemma read_field_result layer name :
  returns (read_field layer name) \/ read_field layer name = Raise IndexError.
Proof.
  unfold read_field.
  destruct (dict_get name layer) as [[| | | | |[|x l]|]|]; eauto;
    left; eexists; reflexivity.
Qed.

(** Reading a pair of fields from a layer that is present returns or
    raises [IndexError]. *)
Lemma read_pair_result d layer_name v f1 f2 :
  dict_get layer_name d = Some v ->
  returns (read_pair (PyDict d) layer_name f1 f2) \/
  read_pair (PyDict d) layer_name f1 f2 = Raise IndexError.
Proof.
  intros Hl. unfold read_pair. simpl. rewrite Hl. simpl.
  destruct v; try (left; eexists; reflexivity).
  destruct (read_field_result d0 f1) as [[a Ha]|Ha]; rewrite Ha; simpl;
    [|by right].
  destruct (read_field_result d0 f2) as [[b Hb]|Hb]; rewrite Hb; simpl;
    [left; eexists; reflexivity | by right].
Qed.

Lemma read_pair_raises d layer_name layer f1 f2 name :
  dict_get layer_name d = Some (PyDict layer) ->
  name = f1 \/ name = f2 ->
  dict_get name layer = Some (PyList []) ->
  read_pair (PyDict d) layer_name f1 f2 = Raise IndexError.
Proof.
  intros Hl Hname Hf. unfold read_pair. simpl. rewrite Hl. simpl.
  destruct Hname as [-> | ->].
  - by rewrite (read_field_raises _ _ Hf).
  - destruct (read_field_result layer f1) as [[a Ha]|Ha]; rewrite Ha; simpl;
      [by rewrite (read_field_raises _ _ Hf) | reflexivity].
Qed.

Lemma address_pair_result d :
  let r := if match dict_get "ip" d with Some _ => true | None => false end
           then read_pair (PyDict d) "ip" "ip_src" "ip_dst"
           else Ok (PyNone, PyNone) in
  returns r \/ r = Raise IndexError.
Proof.
  destruct (dict_get "ip" d) as [v|] eqn:Hl; simpl.
  - by eapply read_pair_result.
  - left. eexists. reflexivity.
Qed.

(** The flow key of such a record cannot be built. *)
Lemma flow_key_of_empty_field d :
  empty_field d -> flow_key_of (PyDict d) = Raise IndexError.
Proof.
  intros He. unfold flow_key_of, py_contains. cbn [mbind result_bind].
  destruct He as [ip name Hl Hname Hf|tcp name Hl Hname Hf
                 |udp name Hnt Hl Hname Hf].
  - rewrite Hl.
    by rewrite (read_pair_raises d "ip" ip "ip_src" "ip_dst" name).
  - destruct (address_pair_result d) as [[[a b] Ha]|Ha];
      cbv zeta in Ha; rewrite Ha; [|reflexivity].
    cbn [mbind result_bind]. rewrite Hl.
    by rewrite (read_pair_raises d "tcp" tcp "tcp_srcport" "tcp_dstport" name).
  - destruct (address_pair_result d) as [[[a b] Ha]|Ha];
      cbv zeta in Ha; rewrite Ha; [|reflexivity].
    cbn [mbind result_bind]. rewrite Hnt, Hl.
    by rewrite (read_pair_raises d "udp" udp "udp_srcport" "udp_dstport" name).
Qed.
Lemma flows_loop_returns w : forall flows r,
  flows_loop w flows = Ok r ->
  Forall (fun p => returns (flow_key_of (layers p))) w.
Proof.
  induction w as [|p w IH]; intros flows r Hr; [constructor|].
  simpl in Hr. destruct (flow_key_of (layers p)) as [k|e] eqn:Hk;
    [|discriminate].
  constructor; [by exists k|].
  simpl in Hr. destruct k as [[[a b] c] d].
  destruct (truthy a && truthy b).
  - destruct (key_hashable (a, b, c, d)); [|discriminate]. by eapply IH.
  - by eapply IH.
Qed.

(** X2. [extract_features] raises whenever a record of the window has an
    address or port field bound to an empty list, wherever the record
    stands in the window and whatever the other records hold. *)
Theorem extract_features_raises_on_any_empty_field self now w :
  window_filter (Naive (now - 1000000 * window_size self))
                (packet_buffer self) = Ok w ->
  Exists (fun p => exists d, layers p = PyDict d /\ empty_field d) w ->
  exists e, extract_features self now = Raise e.
Proof.
  intros Hw Hex.
  destruct (extract_features self now) as [f|e] eqn:Hx; [|by exists e].
  exfalso.
  assert (Hne : w <> []) by (intros ->; by apply Exists_nil in Hex).
  destruct (extract_features_inv _ _ _ _ Hw Hne Hx)
    as (pr & counts & tb & br & tr & ur & ir & or & flowf & connf & sizef
        & _ & _ & _ & _ & Hflow & _).
  unfold _extract_flow_features in Hflow. inv_bind Hflow.
  apply flows_loop_returns in Hx0.
  apply Exists_exists in Hex as (p & Hin & d & Hd & He).
  rewrite Forall_forall in Hx0. destruct (Hx0 p Hin) as [k Hk].
  rewrite Hd, (flow_key_of_empty_field d He) in Hk. discriminate.
Qed.
End ExtractorMore.

(** The theorem at a record in a window of length zero. *)
Lemma extract_features_zero_window_witness :
  extract_features (zero_window [record_at 100 (PyDict [])]) 100
    = Raise ZeroDivisionError.
Proof.
  exact (extract_features_zero_window
           (zero_window [record_at 100 (PyDict [])]) 100
           [record_at 100 (PyDict [])] eq_refl eq_refl ltac:(discriminate)).
Defined.

(** The theorem at a window whose second record has an empty
    [udp_dstport]. *)
Lemma extract_features_raises_on_any_empty_field_witness :
  exists e,
    extract_features
      (extractor_of
         [ record_at 100 (PyDict [("tcp", PyDict [])]);
           record_at 100 (one_field "udp" "udp_dstport" (PyList [])) ]) 150
    = Raise e.
Proof.
  apply (extract_features_raises_on_any_empty_field
           (extractor_of
              [ record_at 100 (PyDict [("tcp", PyDict [])]);
                record_at 100 (one_field "udp" "udp_dstport" (PyList [])) ])
           150
           [ record_at 100 (PyDict [("tcp", PyDict [])]);
             record_at 100 (one_field "udp" "udp_dstport" (PyList [])) ]
           eq_refl).
  apply Exists_cons_tl, Exists_cons_hd.
  eexists. split; [reflexivity|].
  eapply empty_udp_field;
    [reflexivity | reflexivity | right; reflexivity | reflexivity].
Defined.

Section ExtractorSums.
Context `{PyBuiltins} `{Numpy}.

(** The bytes a record adds to the total are its packet size, or 0 when it
    has none. *)
Lemma byte_count_packet_size l :
  byte_count l = default 0 <$> packet_size l.
Proof.
  unfold byte_count, packet_size.
  destruct (py_contains "ip" l) as [[|]|]; simpl; try reflexivity.
  destruct (py_getitem l "ip") as [[| | | | | |d]|]; simpl; try reflexivity.
  destruct (default (PyDict []) (dict_get "ip_len" d)); reflexivity.
Qed.

Lemma protocol_loop_sizes w : forall k b k' b',
  protocol_loop w k b = Ok (k', b') ->
  exists sizes,
    sizes_loop w = Ok sizes /\ b' = b + sum_sizes sizes /\
    (length sizes <= length w)%nat.
Proof.
  induction w as [|p w IH]; intros k b k' b' Hl; simpl in Hl.
  - injection Hl as <- <-. exists []. simpl. split; [reflexivity|].
    split; [unfold sum_sizes; simpl; lia | lia].
  - inv_bind Hl. inv_bind Hl. rename x0 into z.
    rewrite byte_count_packet_size in Hx0.
    apply fmap_Ok in Hx0 as (s & Hs & ->).
    apply IH in Hl as (sizes & Hsz & -> & Hlen).
    simpl. rewrite Hs, Hsz. simpl.
    destruct s as [z|]; eexists; (split; [reflexivity|]);
      unfold sum_sizes; simpl; split; lia.
Qed.

(** X3. When [extract_features] returns on a non-empty window,
    [packet_count] is the number of records of the window and
    [total_bytes] is the sum of the packet sizes the size statistics are
    computed from, of which there is at most one per record. *)
Theorem total_bytes_sums_packet_sizes self now w f :
  window_filter (Naive (now - 1000000 * window_size self))
                (packet_buffer self) = Ok w ->
  w <> [] ->
  extract_features self now = Ok f ->
  exists sizes,
    sizes_loop w = Ok sizes /\
    (length sizes <= length w)%nat /\
    f !! "packet_count" = Some (NInt (Z.of_nat (length w))) /\
    f !! "total_bytes" = Some (NInt (sum_sizes sizes)) /\
    f !! "max_packet_size" = Some (reduce_or_zero np_max (map NInt sizes)).
Proof.
  intros Hw Hne Hx.
  destruct (extract_features_inv _ _ _ _ Hw Hne Hx)
    as (pr & counts & tb & br & tr & ur & ir & or & flowf & connf & sizef
        & _ & Hloop & _ & _ & Hflow & Hconn & Hsize & ->).
  destruct (protocol_loop_sizes _ _ _ _ _ Hloop) as (sizes & Hs & -> & Hlen).
  exists sizes. split; [exact Hs|]. split; [exact Hlen|].
  split; [|split].
  - rewrite (lookup_own_key _ _ _ _ _ _ Hflow Hconn Hsize) by reflexivity.
    rewrite ?lookup_insert_ne by done. apply lookup_insert_eq.
  - rewrite (lookup_own_key _ _ _ _ _ _ Hflow Hconn Hsize) by reflexivity.
    rewrite ?lookup_insert_ne by done. apply lookup_insert_eq.
  - unfold _extract_size_features in Hsize. rewrite Hs in Hsize.
    injection Hsize as <-.
    apply lookup_union_Some_l.
    rewrite ?lookup_insert_ne by done. apply lookup_insert_eq.
Qed.
End ExtractorSums.

Lemma scalar_record_returns :
  returns (extract_features
             (extractor_of
                [record_at 100 (one_field "ip" "ip_len" (PyInt 500))]) 150).
Proof. apply is_ok_returns. vm_compute. reflexivity. Qed.

(** The theorem at one record of 500 bytes. *)
Lemma total_bytes_sums_packet_sizes_witness :
  exists f,
    extract_features
      (extractor_of [record_at 100 (one_field "ip" "ip_len" (PyInt 500))]) 150
    = Ok f /\
    f !! "packet_count" = Some (NInt 1) /\
    f !! "total_bytes" = Some (NInt 500).
Proof.
  destruct scalar_record_returns as [f Hf].
  destruct (total_bytes_sums_packet_sizes
              (extractor_of
                 [record_at 100 (one_field "ip" "ip_len" (PyInt 500))])
              150 [record_at 100 (one_field "ip" "ip_len" (PyInt 500))] f
              eq_refl ltac:(discriminate) Hf)
    as (sizes & Hs & _ & Hc & Hb & _).
  injection Hs as <-.
  exists f. split; [exact Hf|]. split; [exact Hc | exact Hb].
Defined.

Lemma default_features_dom :
  dom _get_default_features = list_to_set (C := gset string) feature_order.
Proof.
  unfold _get_default_features. rewrite !dom_insert_L, dom_empty_L.
  apply (bool_decide_unpack _). vm_compute. exact I.
Qed.

Lemma length_np_array l : length (np_array l) = length l.
Proof. unfold np_array. destruct (array_dtype l); by rewrite ?length_map. Qed.

(** An entry of the array is the element, or the element rounded. *)
Lemma np_array_entries l :
  Forall2 (fun y x => x = y \/ x = NFloat (to_float y)) l (np_array l).
Proof.
  unfold np_array.
  destruct (array_dtype l); induction l as [|y l IH]; simpl;
    constructor; auto.
Qed.

Lemma dtype_of_fits y : fits_64_bits y -> dtype_of y <> Object.
Proof.
  destruct y as [z|]; simpl; [|discriminate]. intros Hz.
  destruct ((- 2 ^ 63 <=? z) && (z <? 2 ^ 63)) eqn:H1; [discriminate|].
  destruct ((2 ^ 63 <=? z) && (z <? 2 ^ 64)) eqn:H2; [discriminate|].
  exfalso.
  apply andb_false_iff in H1. apply andb_false_iff in H2.
  rewrite !Z.leb_gt, !Z.ltb_ge in *. lia.
Qed.

Lemma fold_common_float ds : forall d,
  d <> Object -> Forall (fun d' => d' <> Object) ds ->
  d = Float64 \/ Exists (fun d' => d' = Float64) ds ->
  fold_left common_dtype ds d = Float64.
Proof.
  induction ds as [|d' ds IH]; intros d Hd Hall Hex; simpl.
  - destruct Hex as [-> | Hex]; [reflexivity | by apply Exists_nil in Hex].
  - apply Forall_cons in Hall as [Hd' Hall].
    apply IH; [by destruct d, d' | exact Hall |].
    destruct Hex as [-> | Hex]; [left; by destruct d'|].
    apply Exists_cons in Hex as [-> | Hex]; [left; by destruct d | by right].
Qed.

(** An array that holds a float, and whose ints fit 64 bits, is a
    [float64] array. *)
Lemma array_dtype_float l :
  Forall fits_64_bits l -> Exists is_float l -> array_dtype l = Float64.
Proof.
  intros Hfit Hex. destruct l as [|y l]; [reflexivity|]. simpl.
  apply Forall_cons in Hfit as [Hy Hfit].
  apply fold_common_float.
  - by apply dtype_of_fits.
  - apply Forall_map. eapply Forall_impl; [exact Hfit|].
    intros y'. apply dtype_of_fits.
  - apply Exists_cons in Hex as [Hf | Hex].
    + left. by destruct y.
    + right. apply List.Exists_exists in Hex as (y' & Hin & Hf).
      apply List.Exists_exists. exists (dtype_of y').
      split; [by apply in_map | by destruct y'].
Qed.

Section FeatureNames.
Context `{PyBuiltins} `{Numpy}.

(** X4. Every map [extract_features] returns binds exactly the 21 feature
    names, whether the window is empty or not: no helper writes a name
    outside the list and none is left out. *)
Theorem extract_features_names self now f :
  extract_features self now = Ok f ->
  dom f = list_to_set (C := gset string) feature_order.
Proof.
  intros Hx.
  destruct (packet_buffer self) as [|p0 buf] eqn:Hbuf.
  { unfold extract_features in Hx. rewrite Hbuf in Hx.
    injection Hx as <-. apply default_features_dom. }
  destruct (window_filter (Naive (now - 1000000 * window_size self))
              (packet_buffer self)) as [w|e] eqn:Hw.
  2: { unfold extract_features in Hx. rewrite Hbuf in Hx. rewrite Hbuf in Hw.
       rewrite Hw in Hx. discriminate. }
  destruct w as [|p w].
  { unfold extract_features in Hx. rewrite Hbuf in Hx. rewrite Hbuf in Hw.
    rewrite Hw in Hx. injection Hx as <-. apply default_features_dom. }
  destruct (extract_features_inv _ _ _ _ Hw ltac:(discriminate) Hx)
    as (pr & counts & tb & br & tr & ur & ir & or & flowf & connf & sizef
        & _ & _ & _ & _ & Hflow & Hconn & Hsize & ->).
  rewrite !dom_union_L, !dom_insert_L, dom_empty_L.
  rewrite (flow_features_dom _ _ Hflow), (connection_features_dom _ _ Hconn),
    (size_features_dom _ _ Hsize).
  apply (bool_decide_unpack _). vm_compute. exact I.
Qed.

(** X5. The array [get_feature_vector] returns has 21 entries.  Each is
    the value the map of the same call binds to the name at its position,
    never the default of [features.get(key, 0)], either kept as it is or
    rounded to a float by [np.array].  When the map holds a float packet
    rate, as it does on a non-empty window, and every [int] it holds fits
    64 bits, every entry is the float nearest the bound value: an [int]
    above 2^53 is changed. *)
Theorem get_feature_vector_entries self now v :
  get_feature_vector self now = Ok v ->
  length v = 21%nat /\
  exists f,
    extract_features self now = Ok f /\
    Forall2 (fun key x => exists y,
               f !! key = Some y /\ (x = y \/ x = NFloat (to_float y)))
            feature_order v /\
    ((exists r, f !! "packet_rate" = Some (NFloat r)) ->
     (forall key z, f !! key = Some (NInt z) -> - 2 ^ 63 <= z < 2 ^ 64) ->
     Forall2 (fun key x => exists y,
                f !! key = Some y /\ x = NFloat (to_float y))
             feature_order v).
Proof.
  unfold get_feature_vector. intros Hv. inv_bind Hv. rename x into f.
  set (values := map (fun key => default (NInt 0) (f !! key)) feature_order)
    in *.
  assert (E : v = np_array values) by congruence.
  subst v. clear Hv.
  pose proof (extract_features_names _ _ _ Hx) as Hdom.
  assert (Hbound : Forall2 (fun key y => f !! key = Some y)
                           feature_order values).
  { assert (Hall : forall key, key ∈ feature_order -> is_Some (f !! key)).
    { intros key Hkey. apply elem_of_dom. rewrite Hdom.
      by apply elem_of_list_to_set. }
    unfold values. clear -Hall.
    induction feature_order as [|key names IH]; [constructor|].
    simpl. constructor.
    - destruct (Hall key) as [x Hkey]; [left|]. by rewrite Hkey.
    - apply IH. intros key' Hkey'. apply Hall. by right. }
  split.
  { rewrite length_np_array. unfold values. by rewrite length_map. }
  exists f. split; [exact Hx|]. split.
  - pose proof (np_array_entries values) as Hent.
    clear -Hbound Hent. revert Hent. generalize (np_array values).
    induction Hbound as [|key y names vals Hy _ IH]; intros v Hent;
      inversion Hent as [|? x ? v' Hx' Hent']; subst; constructor.
    + exists y. by split.
    + by apply IH.
  - intros [r Hr] Hfit.
    assert (Hd : array_dtype values = Float64).
    { apply array_dtype_float.
      - apply List.Forall_forall. intros y Hy.
        destruct y as [z|]; [|exact I]. simpl.
        assert (Hkey : exists key, f !! key = Some (NInt z)).
        { clear -Hbound Hy.
          induction Hbound as [|key y names vals Hk _ IH];
            [destruct Hy|].
          destruct Hy as [-> | Hy]; [by exists key | by apply IH]. }
        destruct Hkey as [key Hkey]. exact (Hfit key z Hkey).
      - apply List.Exists_exists. exists (NFloat r). split; [|exact I].
        assert (Hin : In "packet_rate" feature_order)
          by (right; left; reflexivity).
        clear -Hbound Hr Hin.
        induction Hbound as [|key y names vals Hk _ IH]; [destruct Hin|].
        destruct Hin as [-> | Hin];
          [left; congruence | right; by apply IH]. }
    unfold np_array. rewrite Hd.
    clear -Hbound.
    induction Hbound as [|key y names vals Hy _ IH]; simpl; constructor;
      [by exists y | exact IH].
Qed.
End FeatureNames.

(** The theorem at one record of 500 bytes. *)
Lemma extract_features_names_witness :
  exists f,
    extract_features
      (extractor_of [record_at 100 (one_field "ip" "ip_len" (PyInt 500))]) 150
    = Ok f /\
    dom f = list_to_set (C := gset string) feature_order.
Proof.
  destruct scalar_record_returns as [f Hf].
  exists f. split; [exact Hf|].
  exact (extract_features_names _ _ f Hf).
Defined.

Lemma large_record_vector_returns :
  returns (get_feature_vector
             (extractor_of
                [record_at 100
                   (one_field "ip" "ip_len" (PyInt 9007199254740993))]) 150).
Proof. apply is_ok_returns. vm_compute. reflexivity. Qed.

(** The theorem at one record of 2^53 + 1 bytes: the entry of
    [total_bytes] is the float 2^53. *)
Lemma get_feature_vector_entries_witness :
  (exists v,
     get_feature_vector
       (extractor_of
          [record_at 100
             (one_field "ip" "ip_len" (PyInt 9007199254740993))]) 150
     = Ok v /\
     length v = 21%nat) /\
  (fun v : list num => v !! 2%nat)
    <$> get_feature_vector
          (extractor_of
             [record_at 100
                (one_field "ip" "ip_len" (PyInt 9007199254740993))]) 150
  = Ok (Some (NFloat (float_of_Z 9007199254740992))).
Proof.
  split; [|vm_compute; reflexivity].
  destruct large_record_vector_returns as [v Hv].
  exists v. split; [exact Hv|].
  exact (proj1 (get_feature_vector_entries _ _ v Hv)).
Defined.

Section ExtractorLimits.
Context `{PyBuiltins} `{Numpy}.



Lemma deque_append_length {A} (n : nat) (x : A) (d : list A) :
  (0 < n)%nat -> (length d <= n)%nat ->
  (length (deque_append n x d) <= n)%nat.
Proof.
  intros Hn Hd. unfold deque_append.
  rewrite length_drop, length_app. simpl. lia.
Qed.

Lemma deque_append_last {A} (n : nat) (x : A) (d : list A) :
  (0 < n)%nat -> last (deque_append n x d) = Some x.
Proof.
  intros Hn. unfold deque_append.
  rewrite drop_app_le by (rewrite length_app; simpl; lia).
  apply last_snoc.
Qed.

(** X7. [add_packets] never leaves more than 10000 records in the buffer,
    whether it returns or raises, and when it ingests a record the last one
    ingested is the newest record of the buffer. *)
Theorem add_packets_bounded packets : forall buf,
  (length buf <= packet_buffer_maxlen)%nat ->
  (length (fst (add_packets packets buf)) <= packet_buffer_maxlen)%nat /\
  (forall r pkt rest,
     packets = (rest ++ [pkt])%list ->
     snd (add_packets packets buf) = Ok tt ->
     ingest_record pkt = Ok r ->
     last (fst (add_packets packets buf)) = Some r).
Proof.
  assert (Hpos : (0 < packet_buffer_maxlen)%nat) by (vm_compute; lia).
  induction packets as [|p packets IH]; intros buf Hlen.
  - split; [exact Hlen|]. intros r pkt rest Hp. by destruct rest.
  - simpl. destruct (ingest_record p) as [r0|e] eqn:Hr0.
    + destruct (IH (deque_append packet_buffer_maxlen r0 buf)) as [Hb Hl];
        [by apply deque_append_length|].
      split; [exact Hb|].
      intros r pkt rest Hp Hok Hr.
      destruct rest as [|p' rest]; simpl in Hp.
      * injection Hp as Hp1 Hp2. subst p packets. simpl.
        assert (r0 = r) by congruence. subst r0.
        by apply deque_append_last.
      * injection Hp as Hp1 Hp2. subst p' packets. by eapply Hl.
    + split; [exact Hlen|]. intros r pkt rest _ Hok. discriminate.
Qed.
End ExtractorLimits.


(** The theorem at one well-formed record and an empty buffer. *)
Lemma add_packets_bounded_witness :
  (length (fst (add_packets [good_record] []))
   <= packet_buffer_maxlen)%nat.
Proof.
  exact (proj1 (add_packets_bounded [good_record] [] (Nat.le_0_l _))).
Defined.

Section ExtractorCounts.
Context `{PyBuiltins} `{Numpy}.

Lemma flows_update_length k p flows :
  (length (flows_update k p flows) <= S (length flows))%nat.
Proof.
  induction flows as [|[k' f] flows IH]; simpl; [lia|].
  destruct (flow_key_eqb k' k); simpl; lia.
Qed.

Lemma flows_loop_length w : forall flows r,
  flows_loop w flows = Ok r ->
  (length r <= length flows + length w)%nat.
Proof.
  induction w as [|p w IH]; intros flows r Hr; simpl in Hr.
  - injection Hr as <-. lia.
  - inv_bind Hr. destruct x as [[[a b] c] d].
    destruct (truthy a && truthy b).
    + destruct (key_hashable (a, b, c, d)); [|discriminate].
      apply IH in Hr.
      pose proof (flows_update_length (a, b, c, d) p flows). simpl. lia.
    + apply IH in Hr. simpl. lia.
Qed.

Lemma set_add_length {A} (eqb : A -> A -> bool) x s :
  (length (set_add eqb x s) <= S (length s))%nat.
Proof.
  unfold set_add. destruct (existsb (eqb x) s); [lia|].
  rewrite length_app. simpl. lia.
Qed.

Lemma add_if_truthy_length v s s' :
  add_if_truthy v s = Ok s' -> (length s' <= S (length s))%nat.
Proof.
  unfold add_if_truthy. destruct (truthy v); [|intros [= <-]; lia].
  destruct (hashable v); [|discriminate].
  intros [= <-]. apply set_add_length.
Qed.

Lemma connections_loop_length w : forall us ud cs us' ud' cs',
  connections_loop w us ud cs = Ok (us', ud', cs') ->
  (length us' <= length us + length w)%nat /\
  (length ud' <= length ud + length w)%nat /\
  (length cs' <= length cs + length w)%nat.
Proof.
  induction w as [|p w IH]; intros us ud cs us' ud' cs' Hr; simpl in Hr.
  - injection Hr as <- <- <-. lia.
  - inv_bind Hr. destruct x.
    + inv_bind Hr. destruct x; try (apply IH in Hr; simpl; lia).
      inv_bind Hr. inv_bind Hr. inv_bind Hr. inv_bind Hr.
      apply add_if_truthy_length in Hx3, Hx4.
      apply IH in Hr as (H1 & H2 & H3).
      assert (H4 : (length (if truthy x && truthy x0
                            then set_add pair_eqb (x, x0) cs else cs)
                    <= S (length cs))%nat).
      { destruct (truthy x && truthy x0);
          [apply set_add_length | lia]. }
      simpl. lia.
    + apply IH in Hr. simpl. lia.
Qed.

(** X8. When [extract_features] returns on a non-empty window, the number
    of flows and the numbers of distinct sources, destinations and
    connections it reports are each between 0 and the number of records
    of the window. *)
Theorem counts_bounded_by_packet_count self now w f :
  window_filter (Naive (now - 1000000 * window_size self))
                (packet_buffer self) = Ok w ->
  w <> [] ->
  extract_features self now = Ok f ->
  Forall (fun key => exists n,
            f !! key = Some (NInt n) /\ 0 <= n <= Z.of_nat (length w))
         ["num_flows"; "unique_sources"; "unique_destinations";
          "unique_connections"].
Proof.
  intros Hw Hne Hx.
  destruct (extract_features_inv _ _ _ _ Hw Hne Hx)
    as (pr & counts & tb & br & tr & ur & ir & or & flowf & connf & sizef
        & _ & _ & _ & _ & Hflow & Hconn & Hsize & ->).
  pose proof (size_features_dom _ _ Hsize) as Ds.
  pose proof (connection_features_dom _ _ Hconn) as Dc.
  unfold _extract_flow_features in Hflow.
  inv_bind Hflow. rename x into flows. inv_bind Hflow.
  destruct x as [ds cs']. injection Hflow as <-.
  apply flows_loop_length in Hx0. simpl in Hx0.
  unfold _extract_connection_features in Hconn.
  inv_bind Hconn. destruct x as [[us ud] cs]. inv_bind Hconn.
  injection Hconn as <-.
  apply connections_loop_length in Hx2 as (Hus & Hud & Hcs). simpl in *.
  repeat constructor.
  - exists (Z.of_nat (length flows)). split; [|lia].
    rewrite lookup_union_r
      by (apply (absent size_names); [exact Ds | reflexivity]).
    rewrite lookup_union_r
      by (apply (absent connection_names); [exact Dc | reflexivity]).
    apply lookup_union_Some_l. apply lookup_insert_eq.
  - exists (Z.of_nat (length us)). split; [|lia].
    rewrite lookup_union_r
      by (apply (absent size_names); [exact Ds | reflexivity]).
    apply lookup_union_Some_l. apply lookup_insert_eq.
  - exists (Z.of_nat (length ud)). split; [|lia].
    rewrite lookup_union_r
      by (apply (absent size_names); [exact Ds | reflexivity]).
    apply lookup_union_Some_l.
    rewrite ?lookup_insert_ne by done. apply lookup_insert_eq.
  - exists (Z.of_nat (length cs)). split; [|lia].
    rewrite lookup_union_r
      by (apply (absent size_names); [exact Ds | reflexivity]).
    apply lookup_union_Some_l.
    rewrite ?lookup_insert_ne by done. apply lookup_insert_eq.
Qed.
End ExtractorCounts.

Lemma two_flow_records_return :
  returns (extract_features
             (extractor_of
                [record_at 100 flow_layers; record_at 110 flow_layers]) 150).
Proof. apply is_ok_returns. vm_compute. reflexivity. Qed.

(** The theorem at two records of one flow. *)
Lemma counts_bounded_by_packet_count_witness :
  exists f n,
    extract_features
      (extractor_of [record_at 100 flow_layers; record_at 110 flow_layers])
      150 = Ok f /\
    f !! "num_flows" = Some (NInt n) /\ 0 <= n <= 2.
Proof.
  destruct two_flow_records_return as [f Hf].
  destruct (Forall_inv
              (counts_bounded_by_packet_count
                 (extractor_of
                    [record_at 100 flow_layers; record_at 110 flow_layers])
                 150 [record_at 100 flow_layers; record_at 110 flow_layers] f
                 eq_refl ltac:(discriminate) Hf))
    as (n & Hn & Hb).
  exists f, n. split; [exact Hf|]. split; [exact Hn | exact Hb].
Defined.

(** ** The ingestion buffer *)

Section QueueMore.
Context {A : Type}.
Implicit Types (q : Queue A) (x : A) (xs : list A).

Lemma never_full q : maxsize q <= 0 -> full q = false.
Proof.
  intros Hm. unfold full.
  replace (0 <? maxsize q) with false by (symmetry; apply Z.ltb_ge; lia).
  reflexivity.
Qed.

(** X9. A queue built with [maxsize <= 0] is never full: every push
    appends, nothing is evicted, and the queue grows with each record. *)
Theorem push_all_unbounded q xs :
  maxsize q <= 0 ->
  push_all xs q
  = ({| maxsize := maxsize q; items := items q ++ xs |}, Ok tt).
Proof.
  intros Hm. revert q Hm. induction xs as [|x xs IH]; intros q Hm; simpl.
  - rewrite app_nil_r. by destruct q.
  - rewrite (push_not_full x q (never_full q Hm)).
    rewrite IH by exact Hm. simpl. by rewrite <- app_assoc.
Qed.

(** X10. Records pushed into an empty queue that can hold them all come
    out of [get_packets] in arrival order: the first [max_packets] of them
    are returned and the others stay queued, in order. *)
Theorem push_all_get_packets (n : Z) xs (max_packets : nat) :
  Z.of_nat (length xs) <= n ->
  0 < n ->
  exists q,
    push_all xs (new_queue n) = (q, Ok tt) /\
    fst (get_packets max_packets q) = take max_packets xs /\
    items (snd (get_packets max_packets q)) = drop max_packets xs /\
    (fst (get_packets max_packets q)
     ++ items (snd (get_packets max_packets q)))%list = xs.
Proof.
  intros Hlen Hn.
  destruct (push_keeps_most_recent (new_queue n) xs)
    as (q & Hq & _ & _ & Hi & _);
    [exact Hn | unfold qsize; simpl; lia |].
  simpl in Hi.
  replace (length xs - Z.to_nat n)%nat with 0%nat in Hi by lia.
  simpl in Hi.
  exists q. split; [exact Hq|]. unfold get_packets. simpl. rewrite Hi.
  split; [reflexivity|]. split; [reflexivity|]. apply take_drop.
Qed.

Lemma put_nowait_full x q :
  full q = true -> put_nowait x q = Raise QueueFull.
Proof. intros Hf. unfold put_nowait. by rewrite Hf. Qed.

Lemma put_nowait_ok x q :
  full q = false ->
  put_nowait x q = Ok {| maxsize := maxsize q; items := items q ++ [x] |}.
Proof. intros Hf. unfold put_nowait. by rewrite Hf. Qed.

(** X11. Beside a consumer the producer's statement still raises nothing,
    but it can lose the new record: when the queue is full and the consumer
    empties it between the failed [put_nowait] and the [get_nowait], the
    [Empty] is swallowed and the record is not queued although the queue is
    empty.  Without consumer steps the statement is the sequential push. *)
Theorem push_racing_loses_record x (k1 k2 : nat) q :
  0 < maxsize q -> qsize q <= maxsize q ->
  push_racing x 0 0 q = push x q /\
  snd (push_racing x k1 k2 q) = Ok tt /\
  (full q = true -> (length (items q) <= k1)%nat ->
   push_racing x k1 k2 q = ({| maxsize := maxsize q; items := [] |}, Ok tt)).
Proof.
  intros Hpos Hle. unfold qsize in Hle. destruct (full q) eqn:Hf.
  - pose proof (put_nowait_full x q Hf) as Hput.
    split; [|split].
    + unfold push_racing, push, consume, get_packets. rewrite Hput.
      unfold get_nowait. destruct q as [m [|x0 rest]]; simpl;
        [reflexivity|].
      by rewrite drop_0.
    + unfold push_racing, consume, get_packets, get_nowait.
      rewrite Hput. simpl.
      destruct (drop k1 (items q)) as [|x0 rest] eqn:Hd; simpl;
        [reflexivity|].
      assert (Hlen : (length (x0 :: rest) <= length (items q))%nat).
      { rewrite <- Hd, length_drop. lia. }
      simpl in Hlen.
      assert (Hk2 : (length (drop k2 rest) <= length rest)%nat)
        by (rewrite length_drop; lia).
      rewrite put_nowait_ok; [reflexivity|].
      unfold full, qsize. simpl.
      replace (maxsize q <=? Z.of_nat (length (drop k2 rest))) with false
        by (symmetry; apply Z.leb_gt; lia).
      apply andb_false_r.
    + intros _ Hk. unfold push_racing, consume, get_packets, get_nowait.
      rewrite Hput. simpl. by rewrite drop_ge by exact Hk.
  - pose proof (put_nowait_ok x q Hf) as Hput.
    unfold push_racing, push. rewrite Hput.
    split; [reflexivity|]. split; [reflexivity|]. discriminate.
Qed.
End QueueMore.

(** The theorem at an unbounded queue. *)
Lemma push_all_unbounded_witness :
  push_all [1; 2; 3] (new_queue 0)
  = ({| maxsize := 0; items := [1; 2; 3] |}, Ok tt).
Proof.
  exact (push_all_unbounded (new_queue 0) [1; 2; 3] ltac:(discriminate)).
Defined.

(** The theorem at three records, of which two are taken. *)
Lemma push_all_get_packets_witness :
  exists q,
    push_all [1; 2; 3] (new_queue 5) = (q, Ok tt) /\
    fst (get_packets 2 q) = [1; 2] /\
    items (snd (get_packets 2 q)) = [3].
Proof.
  destruct (push_all_get_packets 5 [1; 2; 3] 2)
    as (q & Hq & Ht & Hd & _).
  - discriminate.
  - reflexivity.
  - exists q. split; [exact Hq|]. split; [exact Ht | exact Hd].
Defined.

(** The theorem at a full queue of two records that the consumer
    empties. *)
Lemma push_racing_loses_record_witness :
  push_racing 3 2 0 {| maxsize := 2; items := [1; 2] |}
  = ({| maxsize := 2; items := [] |}, Ok tt).
Proof.
  destruct (push_racing_loses_record 3 2 0
              {| maxsize := 2; items := [1; 2] |})
    as (_ & _ & Hlost).
  - reflexivity.
  - discriminate.
  - apply Hlost; [reflexivity | apply Nat.le_refl].
Defined.

(** ** The scoring port *)

Section DetectorMore.
Context `{FloatArith} `{Sklearn}.

(** X12. On an empty batch a trained detector raises [ValueError] as soon
    as the scaler and the model return: the minimum of an empty array of
    scores is undefined.  An untrained detector returns the empty array
    for the same batch. *)
Theorem predict_proba_empty_batch self :
  RowWise ->
  (is_trained self = true -> returns (raw_scores self []) ->
   predict_proba self [] = Raise ValueError) /\
  (is_trained self = false -> predict_proba self [] = Ok []).
Proof.
  intros Hrows. unfold predict_proba. split; intros ->; simpl.
  - intros [raw Hraw]. rewrite Hraw. simpl.
    apply raw_scores_rows in Hraw. by destruct raw.
  - reflexivity.
Qed.

Lemma threshold_predictions_signs mse ps :
  threshold_predictions mse = Some ps ->
  length ps = length mse /\ Forall (fun p => p = 1 \/ p = -1) ps.
Proof.
  unfold threshold_predictions.
  destruct (percentile_90 mse) as [t|]; simpl; [|discriminate].
  intros [= <-]. split; [apply length_map|].
  apply Forall_map, List.Forall_forall. intros e _.
  destruct (Qle_bool e t); auto.
Qed.

Lemma np_ones_signs n : Forall (fun p => p = 1 \/ p = -1) (np_ones n).
Proof.
  apply List.Forall_forall. intros p Hp. apply repeat_spec in Hp. auto.
Qed.

(** X13. Whatever the autoencoder or the LSTM and the percentile
    computation do, raise included, the predictions of these two model
    types are labels 1 or -1, and the call raises only if the scaler
    does. *)
Theorem reconstruction_predictions_are_labels self X Y :
  model_type self = "autoencoder" \/ model_type self = "lstm" ->
  scaler_transform X = Ok Y ->
  exists ps,
    predict self X = Ok ps /\ Forall (fun p => p = 1 \/ p = -1) ps.
Proof.
  intros Hm HY. unfold predict.
  destruct (is_trained self); simpl; [|eexists; split;
    [reflexivity | apply np_ones_signs]].
  rewrite HY. simpl.
  destruct Hm as [-> | ->]; simpl.
  - eexists. split; [reflexivity|]. unfold _predict_autoencoder.
    destruct (has_model self); simpl; [|apply np_ones_signs].
    destruct (autoencoder_mse Y) as [mse|]; simpl; [|apply np_ones_signs].
    destruct (threshold_predictions mse) as [ps|] eqn:Hps; simpl;
      [|apply np_ones_signs].
    by destruct (threshold_predictions_signs _ _ Hps).
  - eexists. split; [reflexivity|]. unfold _predict_lstm.
    destruct (has_model self); simpl; [|apply np_ones_signs].
    destruct (lstm_mse Y) as [mse|]; simpl; [|apply np_ones_signs].
    destruct (threshold_predictions mse) as [ps|] eqn:Hps; simpl;
      [|apply np_ones_signs].
    by destruct (threshold_predictions_signs _ _ Hps).
Qed.

(** X14. When the 90th percentile of a one-element array is its element
    and the model returns one error per row, the autoencoder and the LSTM
    call a single row normal: its error never exceeds the threshold, which
    is the error itself. *)
Theorem single_row_reconstruction_is_normal self x Y :
  (forall e, percentile_90 [e] = Some e) ->
  RowWise ->
  model_type self = "autoencoder" \/ model_type self = "lstm" ->
  scaler_transform [x] = Ok Y ->
  predict self [x] = Ok [1].
Proof.
  intros Hpct Hrows Hm HY. unfold predict.
  destruct (is_trained self); simpl; [|reflexivity].
  rewrite HY. simpl.
  pose proof (scaler_rows _ _ HY) as HlenY. simpl in HlenY.
  assert (Hone : forall mse, length mse = length Y ->
            default (np_ones (length Y)) (threshold_predictions mse) = [1]).
  { intros mse Hlen. rewrite HlenY in *.
    destruct mse as [|e [|e' mse]]; try discriminate.
    unfold threshold_predictions. rewrite Hpct. simpl.
    replace (Qle_bool e e) with true; [reflexivity|].
    symmetry. apply Qle_bool_iff. apply Qle_refl. }
  destruct Hm as [-> | ->]; simpl; f_equal.
  - unfold _predict_autoencoder.
    destruct (has_model self); simpl; [|by rewrite HlenY].
    destruct (autoencoder_mse Y) as [mse|] eqn:Hmse; simpl;
      [|by rewrite HlenY].
    apply Hone. by apply autoencoder_rows.
  - unfold _predict_lstm.
    destruct (has_model self); simpl; [|by rewrite HlenY].
    destruct (lstm_mse Y) as [mse|] eqn:Hmse; simpl; [|by rewrite HlenY].
    apply Hone. by apply lstm_rows.
Qed.

End DetectorMore.

Lemma unit_error_models_row_wise : @RowWise unit_error_models.
Proof.
  split; simpl; intros X l [= <-]; try reflexivity; apply length_map.
Qed.

(** The theorem at a trained and at an untrained isolation forest. *)
Lemma predict_proba_empty_batch_witness :
  predict_proba trained_detector [] = Raise ValueError /\
  predict_proba untrained_detector [] = Ok [].
Proof.
  destruct (@predict_proba_empty_batch exact_arith alarmist trained_detector
              alarmist_row_wise) as [Htrained _].
  destruct (@predict_proba_empty_batch exact_arith alarmist
              untrained_detector alarmist_row_wise) as [_ Huntrained].
  split.
  - apply Htrained; [reflexivity|]. eexists. reflexivity.
  - apply Huntrained. reflexivity.
Defined.

(** The theorem at a trained autoencoder and two rows. *)
Lemma reconstruction_predictions_are_labels_witness :
  exists ps,
    predict autoencoder_detector [[NInt 1]; [NInt 2]] = Ok ps /\
    Forall (fun p => p = 1 \/ p = -1) ps.
Proof.
  exact (reconstruction_predictions_are_labels autoencoder_detector
           [[NInt 1]; [NInt 2]] [[NInt 1]; [NInt 2]]
           (or_introl eq_refl) eq_refl).
Defined.

(** The theorem at a trained autoencoder and one row. *)
Lemma single_row_reconstruction_is_normal_witness :
  @predict unit_error_models autoencoder_detector [[NInt 7]] = Ok [1].
Proof.
  exact (@single_row_reconstruction_is_normal unit_error_models
           autoencoder_detector [NInt 7] [[NInt 7]]
           (fun e => eq_refl) unit_error_models_row_wise
           (or_introl eq_refl) eq_refl).
Defined.

(** ** The agent *)

Section QueueRoom.
Context {A : Type}.

(** Pushes into a queue with room for all of them only append. *)
Lemma push_all_room (xs : list A) : forall q : Queue A,
  0 < maxsize q ->
  Z.of_nat (length (items q) + length xs) <= maxsize q ->
  push_all xs q
  = ({| maxsize := maxsize q; items := items q ++ xs |}, Ok tt).
Proof.
  induction xs as [|x xs IH]; intros q Hpos Hroom; simpl.
  - rewrite app_nil_r. by destruct q.
  - simpl in Hroom. rewrite push_not_full.
    + rewrite IH; simpl; [by rewrite <- app_assoc | exact Hpos |].
      rewrite length_app. simpl. lia.
    + unfold full, qsize. apply andb_false_iff. right.
      apply Z.leb_gt. lia.
Qed.
End QueueRoom.

Section AgentMore.
Context `{PyBuiltins} `{Numpy} `{FloatArith} `{Sklearn} `{Sinks}.

(** X15. When a batch of arrivals that fits the queue and one call of
    [get_packets] holds a malformed record, the cycle ends at that record:
    the records before it are in the buffer, the malformed one and all
    those after it are lost, taken from the queue and never buffered, the
    error is logged, and nothing is scored, counted or written. *)
Theorem malformed_arrival_drops_rest i a pre bad post e :
  items (capture_queue (capture a)) = [] ->
  arrivals i = (pre ++ bad :: post)%list ->
  Z.of_nat (length (arrivals i)) <= maxsize (capture_queue (capture a)) ->
  (length (arrivals i) <= 1000)%nat ->
  Forall (fun p => returns (ingest_record p)) pre ->
  malformed bad e ->
  exists buf,
    add_packets pre (packet_buffer (feature_extractor a)) = (buf, Ok tt) /\
    packet_buffer (feature_extractor (analysis_cycle i a)) = buf /\
    items (capture_queue (capture (analysis_cycle i a))) = [] /\
    logged (analysis_cycle i a)
      = (logged a ++ [LogError "Error in analysis loop"])%list /\
    detection_count (analysis_cycle i a) = detection_count a /\
    normal_count (analysis_cycle i a) = normal_count a /\
    detections_file (analysis_cycle i a) = detections_file a /\
    alerts_file (analysis_cycle i a) = alerts_file a.
Proof.
  intros Hempty Harr Hfit Hmax Hpre Hbad.
  destruct (add_packets_well_formed pre (packet_buffer (feature_extractor a))
              Hpre) as [buf Hbuf].
  exists buf. split; [exact Hbuf|].
  assert (Hne : arrivals i <> []) by (rewrite Harr; by destruct pre).
  assert (Hpos : 0 < maxsize (capture_queue (capture a))).
  { destruct (arrivals i); [congruence | simpl in Hfit; lia]. }
  assert (Hadd : add_packets (arrivals i)
                   (packet_buffer (feature_extractor a)) = (buf, Raise e)).
  { rewrite Harr, add_packets_app, Hbuf. simpl.
    apply ingest_record_raises in Hbad. by rewrite Hbad. }
  unfold analysis_cycle.
  rewrite push_all_room by (rewrite ?Hempty; simpl; lia).
  rewrite Hempty. cbn [fst app].
  unfold cycle_body, get, modify. cbv [mbind agentM_bind].
  cbn [capture capture_queue with_capture set_queue get_packets items
       maxsize fst snd].
  rewrite take_ge, drop_ge by lia.
  destruct (arrivals i) as [|pkt rest] eqn:Ha; [congruence|].
  cbn beta. cbn [feature_extractor with_capture].
  rewrite Hadd.
  cbn [with_buffer log_lines packet_buffer feature_extractor capture
       capture_queue set_queue items logged detection_count normal_count
       detections_file alerts_file].
  repeat split.
Qed.
End AgentMore.

(** The theorem at a started agent and three arrivals, the second without
    timestamp. *)
Lemma malformed_arrival_drops_rest_witness :
  exists buf,
    add_packets [good_record] [] = (buf, Ok tt) /\
    packet_buffer
      (feature_extractor
         (analysis_cycle malformed_arrival
            (start (new_agent trained_detector)))) = buf /\
    items
      (capture_queue
         (capture
            (analysis_cycle malformed_arrival
               (start (new_agent trained_detector))))) = [].
Proof.
  destruct (malformed_arrival_drops_rest malformed_arrival
              (start (new_agent trained_detector))
              [good_record] untimed_record [good_record] KeyError)
    as (buf & Hbuf & Hkept & Hqueue & _).
  - reflexivity.
  - reflexivity.
  - vm_compute. discriminate.
  - vm_compute. lia.
  - constructor; [|constructor].
    apply is_ok_returns. vm_compute. reflexivity.
  - apply no_timestamp. reflexivity.
  - exists buf. split; [exact Hbuf|]. split; [exact Hkept | exact Hqueue].
Defined.
